(** * ACORD form field extractor: the line classifier and the field aggregator

    A shallow embedding of [src/extract_acord_fields.py].  Python strings are
    sequences of Unicode code points, so a string is a list of code points
    here; the regular expressions of [identify_field_names] are terms of a
    small regex syntax run by a backtracking matcher with Python's greedy
    semantics; the set of field names is a [gset]. *)

From Stdlib Require Import NArith Ascii String DecimalString.
From stdpp Require Import base decidable list sorting gmap.

Local Open Scope N_scope.

(** ** Strings *)

(** A Python [str]: a sequence of Unicode code points. *)
Abbreviation char := N (only parsing).
Abbreviation str := (list N) (only parsing).

(** The code point of an ASCII character, and ASCII literals as [str]. *)
Definition chr (a : ascii) : char := N_of_ascii a.
Definition lit (s : string) : str := map chr (list_ascii_of_string s).

Definition in_ranges (tbl : list (N * N)) (c : char) : bool :=
  existsb (fun r => (fst r <=? c) && (c <=? snd r)) tbl.

(** *** Tables of the Unicode character database (version 14.0.0), as used by
    CPython for [str.isspace], [str.isdecimal] and [str.isupper]: inclusive
    ranges of code points. *)

Module Unicode.

Definition whitespace_table : list (N * N) :=
 [(0x9, 0xD); (0x1C, 0x20); (0x85, 0x85); (0xA0, 0xA0); (0x1680, 0x1680); (0x2000, 0x200A);
  (0x2028, 0x2029); (0x202F, 0x202F); (0x205F, 0x205F); (0x3000, 0x3000)]%N.

Definition decimal_table : list (N * N) :=
 [(0x30, 0x39); (0x660, 0x669); (0x6F0, 0x6F9); (0x7C0, 0x7C9); (0x966, 0x96F); (0x9E6, 0x9EF);
  (0xA66, 0xA6F); (0xAE6, 0xAEF); (0xB66, 0xB6F); (0xBE6, 0xBEF); (0xC66, 0xC6F); (0xCE6, 0xCEF);
  (0xD66, 0xD6F); (0xDE6, 0xDEF); (0xE50, 0xE59); (0xED0, 0xED9); (0xF20, 0xF29); (0x1040, 0x1049);
  (0x1090, 0x1099); (0x17E0, 0x17E9); (0x1810, 0x1819); (0x1946, 0x194F); (0x19D0, 0x19D9); (0x1A80, 0x1A89);
  (0x1A90, 0x1A99); (0x1B50, 0x1B59); (0x1BB0, 0x1BB9); (0x1C40, 0x1C49); (0x1C50, 0x1C59); (0xA620, 0xA629);
  (0xA8D0, 0xA8D9); (0xA900, 0xA909); (0xA9D0, 0xA9D9); (0xA9F0, 0xA9F9); (0xAA50, 0xAA59); (0xABF0, 0xABF9);
  (0xFF10, 0xFF19); (0x104A0, 0x104A9); (0x10D30, 0x10D39); (0x11066, 0x1106F); (0x110F0, 0x110F9); (0x11136, 0x1113F);
  (0x111D0, 0x111D9); (0x112F0, 0x112F9); (0x11450, 0x11459); (0x114D0, 0x114D9); (0x11650, 0x11659); (0x116C0, 0x116C9);
  (0x11730, 0x11739); (0x118E0, 0x118E9); (0x11950, 0x11959); (0x11C50, 0x11C59); (0x11D50, 0x11D59); (0x11DA0, 0x11DA9);
  (0x16A60, 0x16A69); (0x16AC0, 0x16AC9); (0x16B50, 0x16B59); (0x1D7CE, 0x1D7FF); (0x1E140, 0x1E149); (0x1E2F0, 0x1E2F9);
  (0x1E950, 0x1E959); (0x1FBF0, 0x1FBF9)]%N.

Definition uppercase_table : list (N * N) :=
 [(0x41, 0x5A); (0xC0, 0xD6); (0xD8, 0xDE); (0x100, 0x100); (0x102, 0x102); (0x104, 0x104);
  (0x106, 0x106); (0x108, 0x108); (0x10A, 0x10A); (0x10C, 0x10C); (0x10E, 0x10E); (0x110, 0x110);
  (0x112, 0x112); (0x114, 0x114); (0x116, 0x116); (0x118, 0x118); (0x11A, 0x11A); (0x11C, 0x11C);
  (0x11E, 0x11E); (0x120, 0x120); (0x122, 0x122); (0x124, 0x124); (0x126, 0x126); (0x128, 0x128);
  (0x12A, 0x12A); (0x12C, 0x12C); (0x12E, 0x12E); (0x130, 0x130); (0x132, 0x132); (0x134, 0x134);
  (0x136, 0x136); (0x139, 0x139); (0x13B, 0x13B); (0x13D, 0x13D); (0x13F, 0x13F); (0x141, 0x141);
  (0x143, 0x143); (0x145, 0x145); (0x147, 0x147); (0x14A, 0x14A); (0x14C, 0x14C); (0x14E, 0x14E);
  (0x150, 0x150); (0x152, 0x152); (0x154, 0x154); (0x156, 0x156); (0x158, 0x158); (0x15A, 0x15A);
  (0x15C, 0x15C); (0x15E, 0x15E); (0x160, 0x160); (0x162, 0x162); (0x164, 0x164); (0x166, 0x166);
  (0x168, 0x168); (0x16A, 0x16A); (0x16C, 0x16C); (0x16E, 0x16E); (0x170, 0x170); (0x172, 0x172);
  (0x174, 0x174); (0x176, 0x176); (0x178, 0x179); (0x17B, 0x17B); (0x17D, 0x17D); (0x181, 0x182);
  (0x184, 0x184); (0x186, 0x187); (0x189, 0x18B); (0x18E, 0x191); (0x193, 0x194); (0x196, 0x198);
  (0x19C, 0x19D); (0x19F, 0x1A0); (0x1A2, 0x1A2); (0x1A4, 0x1A4); (0x1A6, 0x1A7); (0x1A9, 0x1A9);
  (0x1AC, 0x1AC); (0x1AE, 0x1AF); (0x1B1, 0x1B3); (0x1B5, 0x1B5); (0x1B7, 0x1B8); (0x1BC, 0x1BC);
  (0x1C4, 0x1C4); (0x1C7, 0x1C7); (0x1CA, 0x1CA); (0x1CD, 0x1CD); (0x1CF, 0x1CF); (0x1D1, 0x1D1);
  (0x1D3, 0x1D3); (0x1D5, 0x1D5); (0x1D7, 0x1D7); (0x1D9, 0x1D9); (0x1DB, 0x1DB); (0x1DE, 0x1DE);
  (0x1E0, 0x1E0); (0x1E2, 0x1E2); (0x1E4, 0x1E4); (0x1E6, 0x1E6); (0x1E8, 0x1E8); (0x1EA, 0x1EA);
  (0x1EC, 0x1EC); (0x1EE, 0x1EE); (0x1F1, 0x1F1); (0x1F4, 0x1F4); (0x1F6, 0x1F8); (0x1FA, 0x1FA);
  (0x1FC, 0x1FC); (0x1FE, 0x1FE); (0x200, 0x200); (0x202, 0x202); (0x204, 0x204); (0x206, 0x206);
  (0x208, 0x208); (0x20A, 0x20A); (0x20C, 0x20C); (0x20E, 0x20E); (0x210, 0x210); (0x212, 0x212);
  (0x214, 0x214); (0x216, 0x216); (0x218, 0x218); (0x21A, 0x21A); (0x21C, 0x21C); (0x21E, 0x21E);
  (0x220, 0x220); (0x222, 0x222); (0x224, 0x224); (0x226, 0x226); (0x228, 0x228); (0x22A, 0x22A);
  (0x22C, 0x22C); (0x22E, 0x22E); (0x230, 0x230); (0x232, 0x232); (0x23A, 0x23B); (0x23D, 0x23E);
  (0x241, 0x241); (0x243, 0x246); (0x248, 0x248); (0x24A, 0x24A); (0x24C, 0x24C); (0x24E, 0x24E);
  (0x370, 0x370); (0x372, 0x372); (0x376, 0x376); (0x37F, 0x37F); (0x386, 0x386); (0x388, 0x38A);
  (0x38C, 0x38C); (0x38E, 0x38F); (0x391, 0x3A1); (0x3A3, 0x3AB); (0x3CF, 0x3CF); (0x3D2, 0x3D4);
  (0x3D8, 0x3D8); (0x3DA, 0x3DA); (0x3DC, 0x3DC); (0x3DE, 0x3DE); (0x3E0, 0x3E0); (0x3E2, 0x3E2);
  (0x3E4, 0x3E4); (0x3E6, 0x3E6); (0x3E8, 0x3E8); (0x3EA, 0x3EA); (0x3EC, 0x3EC); (0x3EE, 0x3EE);
  (0x3F4, 0x3F4); (0x3F7, 0x3F7); (0x3F9, 0x3FA); (0x3FD, 0x42F); (0x460, 0x460); (0x462, 0x462);
  (0x464, 0x464); (0x466, 0x466); (0x468, 0x468); (0x46A, 0x46A); (0x46C, 0x46C); (0x46E, 0x46E);
  (0x470, 0x470); (0x472, 0x472); (0x474, 0x474); (0x476, 0x476); (0x478, 0x478); (0x47A, 0x47A);
  (0x47C, 0x47C); (0x47E, 0x47E); (0x480, 0x480); (0x48A, 0x48A); (0x48C, 0x48C); (0x48E, 0x48E);
  (0x490, 0x490); (0x492, 0x492); (0x494, 0x494); (0x496, 0x496); (0x498, 0x498); (0x49A, 0x49A);
  (0x49C, 0x49C); (0x49E, 0x49E); (0x4A0, 0x4A0); (0x4A2, 0x4A2); (0x4A4, 0x4A4); (0x4A6, 0x4A6);
  (0x4A8, 0x4A8); (0x4AA, 0x4AA); (0x4AC, 0x4AC); (0x4AE, 0x4AE); (0x4B0, 0x4B0); (0x4B2, 0x4B2);
  (0x4B4, 0x4B4); (0x4B6, 0x4B6); (0x4B8, 0x4B8); (0x4BA, 0x4BA); (0x4BC, 0x4BC); (0x4BE, 0x4BE);
  (0x4C0, 0x4C1); (0x4C3, 0x4C3); (0x4C5, 0x4C5); (0x4C7, 0x4C7); (0x4C9, 0x4C9); (0x4CB, 0x4CB);
  (0x4CD, 0x4CD); (0x4D0, 0x4D0); (0x4D2, 0x4D2); (0x4D4, 0x4D4); (0x4D6, 0x4D6); (0x4D8, 0x4D8);
  (0x4DA, 0x4DA); (0x4DC, 0x4DC); (0x4DE, 0x4DE); (0x4E0, 0x4E0); (0x4E2, 0x4E2); (0x4E4, 0x4E4);
  (0x4E6, 0x4E6); (0x4E8, 0x4E8); (0x4EA, 0x4EA); (0x4EC, 0x4EC); (0x4EE, 0x4EE); (0x4F0, 0x4F0);
  (0x4F2, 0x4F2); (0x4F4, 0x4F4); (0x4F6, 0x4F6); (0x4F8, 0x4F8); (0x4FA, 0x4FA); (0x4FC, 0x4FC);
  (0x4FE, 0x4FE); (0x500, 0x500); (0x502, 0x502); (0x504, 0x504); (0x506, 0x506); (0x508, 0x508);
  (0x50A, 0x50A); (0x50C, 0x50C); (0x50E, 0x50E); (0x510, 0x510); (0x512, 0x512); (0x514, 0x514);
  (0x516, 0x516); (0x518, 0x518); (0x51A, 0x51A); (0x51C, 0x51C); (0x51E, 0x51E); (0x520, 0x520);
  (0x522, 0x522); (0x524, 0x524); (0x526, 0x526); (0x528, 0x528); (0x52A, 0x52A); (0x52C, 0x52C);
  (0x52E, 0x52E); (0x531, 0x556); (0x10A0, 0x10C5); (0x10C7, 0x10C7); (0x10CD, 0x10CD); (0x13A0, 0x13F5);
  (0x1C90, 0x1CBA); (0x1CBD, 0x1CBF); (0x1E00, 0x1E00); (0x1E02, 0x1E02); (0x1E04, 0x1E04); (0x1E06, 0x1E06);
  (0x1E08, 0x1E08); (0x1E0A, 0x1E0A); (0x1E0C, 0x1E0C); (0x1E0E, 0x1E0E); (0x1E10, 0x1E10); (0x1E12, 0x1E12);
  (0x1E14, 0x1E14); (0x1E16, 0x1E16); (0x1E18, 0x1E18); (0x1E1A, 0x1E1A); (0x1E1C, 0x1E1C); (0x1E1E, 0x1E1E);
  (0x1E20, 0x1E20); (0x1E22, 0x1E22); (0x1E24, 0x1E24); (0x1E26, 0x1E26); (0x1E28, 0x1E28); (0x1E2A, 0x1E2A);
  (0x1E2C, 0x1E2C); (0x1E2E, 0x1E2E); (0x1E30, 0x1E30); (0x1E32, 0x1E32); (0x1E34, 0x1E34); (0x1E36, 0x1E36);
  (0x1E38, 0x1E38); (0x1E3A, 0x1E3A); (0x1E3C, 0x1E3C); (0x1E3E, 0x1E3E); (0x1E40, 0x1E40); (0x1E42, 0x1E42);
  (0x1E44, 0x1E44); (0x1E46, 0x1E46); (0x1E48, 0x1E48); (0x1E4A, 0x1E4A); (0x1E4C, 0x1E4C); (0x1E4E, 0x1E4E);
  (0x1E50, 0x1E50); (0x1E52, 0x1E52); (0x1E54, 0x1E54); (0x1E56, 0x1E56); (0x1E58, 0x1E58); (0x1E5A, 0x1E5A);
  (0x1E5C, 0x1E5C); (0x1E5E, 0x1E5E); (0x1E60, 0x1E60); (0x1E62, 0x1E62); (0x1E64, 0x1E64); (0x1E66, 0x1E66);
  (0x1E68, 0x1E68); (0x1E6A, 0x1E6A); (0x1E6C, 0x1E6C); (0x1E6E, 0x1E6E); (0x1E70, 0x1E70); (0x1E72, 0x1E72);
  (0x1E74, 0x1E74); (0x1E76, 0x1E76); (0x1E78, 0x1E78); (0x1E7A, 0x1E7A); (0x1E7C, 0x1E7C); (0x1E7E, 0x1E7E);
  (0x1E80, 0x1E80); (0x1E82, 0x1E82); (0x1E84, 0x1E84); (0x1E86, 0x1E86); (0x1E88, 0x1E88); (0x1E8A, 0x1E8A);
  (0x1E8C, 0x1E8C); (0x1E8E, 0x1E8E); (0x1E90, 0x1E90); (0x1E92, 0x1E92); (0x1E94, 0x1E94); (0x1E9E, 0x1E9E);
  (0x1EA0, 0x1EA0); (0x1EA2, 0x1EA2); (0x1EA4, 0x1EA4); (0x1EA6, 0x1EA6); (0x1EA8, 0x1EA8); (0x1EAA, 0x1EAA);
  (0x1EAC, 0x1EAC); (0x1EAE, 0x1EAE); (0x1EB0, 0x1EB0); (0x1EB2, 0x1EB2); (0x1EB4, 0x1EB4); (0x1EB6, 0x1EB6);
  (0x1EB8, 0x1EB8); (0x1EBA, 0x1EBA); (0x1EBC, 0x1EBC); (0x1EBE, 0x1EBE); (0x1EC0, 0x1EC0); (0x1EC2, 0x1EC2);
  (0x1EC4, 0x1EC4); (0x1EC6, 0x1EC6); (0x1EC8, 0x1EC8); (0x1ECA, 0x1ECA); (0x1ECC, 0x1ECC); (0x1ECE, 0x1ECE);
  (0x1ED0, 0x1ED0); (0x1ED2, 0x1ED2); (0x1ED4, 0x1ED4); (0x1ED6, 0x1ED6); (0x1ED8, 0x1ED8); (0x1EDA, 0x1EDA);
  (0x1EDC, 0x1EDC); (0x1EDE, 0x1EDE); (0x1EE0, 0x1EE0); (0x1EE2, 0x1EE2); (0x1EE4, 0x1EE4); (0x1EE6, 0x1EE6);
  (0x1EE8, 0x1EE8); (0x1EEA, 0x1EEA); (0x1EEC, 0x1EEC); (0x1EEE, 0x1EEE); (0x1EF0, 0x1EF0); (0x1EF2, 0x1EF2);
  (0x1EF4, 0x1EF4); (0x1EF6, 0x1EF6); (0x1EF8, 0x1EF8); (0x1EFA, 0x1EFA); (0x1EFC, 0x1EFC); (0x1EFE, 0x1EFE);
  (0x1F08, 0x1F0F); (0x1F18, 0x1F1D); (0x1F28, 0x1F2F); (0x1F38, 0x1F3F); (0x1F48, 0x1F4D); (0x1F59, 0x1F59);
  (0x1F5B, 0x1F5B); (0x1F5D, 0x1F5D); (0x1F5F, 0x1F5F); (0x1F68, 0x1F6F); (0x1FB8, 0x1FBB); (0x1FC8, 0x1FCB);
  (0x1FD8, 0x1FDB); (0x1FE8, 0x1FEC); (0x1FF8, 0x1FFB); (0x2102, 0x2102); (0x2107, 0x2107); (0x210B, 0x210D);
  (0x2110, 0x2112); (0x2115, 0x2115); (0x2119, 0x211D); (0x2124, 0x2124); (0x2126, 0x2126); (0x2128, 0x2128);
  (0x212A, 0x212D); (0x2130, 0x2133); (0x213E, 0x213F); (0x2145, 0x2145); (0x2160, 0x216F); (0x2183, 0x2183);
  (0x24B6, 0x24CF); (0x2C00, 0x2C2F); (0x2C60, 0x2C60); (0x2C62, 0x2C64); (0x2C67, 0x2C67); (0x2C69, 0x2C69);
  (0x2C6B, 0x2C6B); (0x2C6D, 0x2C70); (0x2C72, 0x2C72); (0x2C75, 0x2C75); (0x2C7E, 0x2C80); (0x2C82, 0x2C82);
  (0x2C84, 0x2C84); (0x2C86, 0x2C86); (0x2C88, 0x2C88); (0x2C8A, 0x2C8A); (0x2C8C, 0x2C8C); (0x2C8E, 0x2C8E);
  (0x2C90, 0x2C90); (0x2C92, 0x2C92); (0x2C94, 0x2C94); (0x2C96, 0x2C96); (0x2C98, 0x2C98); (0x2C9A, 0x2C9A);
  (0x2C9C, 0x2C9C); (0x2C9E, 0x2C9E); (0x2CA0, 0x2CA0); (0x2CA2, 0x2CA2); (0x2CA4, 0x2CA4); (0x2CA6, 0x2CA6);
  (0x2CA8, 0x2CA8); (0x2CAA, 0x2CAA); (0x2CAC, 0x2CAC); (0x2CAE, 0x2CAE); (0x2CB0, 0x2CB0); (0x2CB2, 0x2CB2);
  (0x2CB4, 0x2CB4); (0x2CB6, 0x2CB6); (0x2CB8, 0x2CB8); (0x2CBA, 0x2CBA); (0x2CBC, 0x2CBC); (0x2CBE, 0x2CBE);
  (0x2CC0, 0x2CC0); (0x2CC2, 0x2CC2); (0x2CC4, 0x2CC4); (0x2CC6, 0x2CC6); (0x2CC8, 0x2CC8); (0x2CCA, 0x2CCA);
  (0x2CCC, 0x2CCC); (0x2CCE, 0x2CCE); (0x2CD0, 0x2CD0); (0x2CD2, 0x2CD2); (0x2CD4, 0x2CD4); (0x2CD6, 0x2CD6);
  (0x2CD8, 0x2CD8); (0x2CDA, 0x2CDA); (0x2CDC, 0x2CDC); (0x2CDE, 0x2CDE); (0x2CE0, 0x2CE0); (0x2CE2, 0x2CE2);
  (0x2CEB, 0x2CEB); (0x2CED, 0x2CED); (0x2CF2, 0x2CF2); (0xA640, 0xA640); (0xA642, 0xA642); (0xA644, 0xA644);
  (0xA646, 0xA646); (0xA648, 0xA648); (0xA64A, 0xA64A); (0xA64C, 0xA64C); (0xA64E, 0xA64E); (0xA650, 0xA650);
  (0xA652, 0xA652); (0xA654, 0xA654); (0xA656, 0xA656); (0xA658, 0xA658); (0xA65A, 0xA65A); (0xA65C, 0xA65C);
  (0xA65E, 0xA65E); (0xA660, 0xA660); (0xA662, 0xA662); (0xA664, 0xA664); (0xA666, 0xA666); (0xA668, 0xA668);
  (0xA66A, 0xA66A); (0xA66C, 0xA66C); (0xA680, 0xA680); (0xA682, 0xA682); (0xA684, 0xA684); (0xA686, 0xA686);
  (0xA688, 0xA688); (0xA68A, 0xA68A); (0xA68C, 0xA68C); (0xA68E, 0xA68E); (0xA690, 0xA690); (0xA692, 0xA692);
  (0xA694, 0xA694); (0xA696, 0xA696); (0xA698, 0xA698); (0xA69A, 0xA69A); (0xA722, 0xA722); (0xA724, 0xA724);
  (0xA726, 0xA726); (0xA728, 0xA728); (0xA72A, 0xA72A); (0xA72C, 0xA72C); (0xA72E, 0xA72E); (0xA732, 0xA732);
  (0xA734, 0xA734); (0xA736, 0xA736); (0xA738, 0xA738); (0xA73A, 0xA73A); (0xA73C, 0xA73C); (0xA73E, 0xA73E);
  (0xA740, 0xA740); (0xA742, 0xA742); (0xA744, 0xA744); (0xA746, 0xA746); (0xA748, 0xA748); (0xA74A, 0xA74A);
  (0xA74C, 0xA74C); (0xA74E, 0xA74E); (0xA750, 0xA750); (0xA752, 0xA752); (0xA754, 0xA754); (0xA756, 0xA756);
  (0xA758, 0xA758); (0xA75A, 0xA75A); (0xA75C, 0xA75C); (0xA75E, 0xA75E); (0xA760, 0xA760); (0xA762, 0xA762);
  (0xA764, 0xA764); (0xA766, 0xA766); (0xA768, 0xA768); (0xA76A, 0xA76A); (0xA76C, 0xA76C); (0xA76E, 0xA76E);
  (0xA779, 0xA779); (0xA77B, 0xA77B); (0xA77D, 0xA77E); (0xA780, 0xA780); (0xA782, 0xA782); (0xA784, 0xA784);
  (0xA786, 0xA786); (0xA78B, 0xA78B); (0xA78D, 0xA78D); (0xA790, 0xA790); (0xA792, 0xA792); (0xA796, 0xA796);
  (0xA798, 0xA798); (0xA79A, 0xA79A); (0xA79C, 0xA79C); (0xA79E, 0xA79E); (0xA7A0, 0xA7A0); (0xA7A2, 0xA7A2);
  (0xA7A4, 0xA7A4); (0xA7A6, 0xA7A6); (0xA7A8, 0xA7A8); (0xA7AA, 0xA7AE); (0xA7B0, 0xA7B4); (0xA7B6, 0xA7B6);
  (0xA7B8, 0xA7B8); (0xA7BA, 0xA7BA); (0xA7BC, 0xA7BC); (0xA7BE, 0xA7BE); (0xA7C0, 0xA7C0); (0xA7C2, 0xA7C2);
  (0xA7C4, 0xA7C7); (0xA7C9, 0xA7C9); (0xA7D0, 0xA7D0); (0xA7D6, 0xA7D6); (0xA7D8, 0xA7D8); (0xA7F5, 0xA7F5);
  (0xFF21, 0xFF3A); (0x10400, 0x10427); (0x104B0, 0x104D3); (0x10570, 0x1057A); (0x1057C, 0x1058A); (0x1058C, 0x10592);
  (0x10594, 0x10595); (0x10C80, 0x10CB2); (0x118A0, 0x118BF); (0x16E40, 0x16E5F); (0x1D400, 0x1D419); (0x1D434, 0x1D44D);
  (0x1D468, 0x1D481); (0x1D49C, 0x1D49C); (0x1D49E, 0x1D49F); (0x1D4A2, 0x1D4A2); (0x1D4A5, 0x1D4A6); (0x1D4A9, 0x1D4AC);
  (0x1D4AE, 0x1D4B5); (0x1D4D0, 0x1D4E9); (0x1D504, 0x1D505); (0x1D507, 0x1D50A); (0x1D50D, 0x1D514); (0x1D516, 0x1D51C);
  (0x1D538, 0x1D539); (0x1D53B, 0x1D53E); (0x1D540, 0x1D544); (0x1D546, 0x1D546); (0x1D54A, 0x1D550); (0x1D56C, 0x1D585);
  (0x1D5A0, 0x1D5B9); (0x1D5D4, 0x1D5ED); (0x1D608, 0x1D621); (0x1D63C, 0x1D655); (0x1D670, 0x1D689); (0x1D6A8, 0x1D6C0);
  (0x1D6E2, 0x1D6FA); (0x1D71C, 0x1D734); (0x1D756, 0x1D76E); (0x1D790, 0x1D7A8); (0x1D7CA, 0x1D7CA); (0x1E900, 0x1E921);
  (0x1F130, 0x1F149); (0x1F150, 0x1F169); (0x1F170, 0x1F189)]%N.

End Unicode.

(** [c.isspace()]; also what [\s] matches and what [strip()] and [split()]
    remove. *)
Definition isspace (c : char) : bool := in_ranges Unicode.whitespace_table c.

(** [c.isdecimal()]; what [\d] matches in a [str] pattern. *)
Definition isdecimal (c : char) : bool := in_ranges Unicode.decimal_table c.

(** [c.isupper()] for a one-character string. *)
Definition isupper (c : char) : bool := in_ranges Unicode.uppercase_table c.

(** [s.lstrip()], [s.rstrip()], [s.strip()]. *)
Fixpoint lstrip (s : str) : str :=
  match s with
  | c :: s' => if isspace c then lstrip s' else s
  | [] => []
  end.

Definition rstrip (s : str) : str := rev (lstrip (rev s)).

Definition strip (s : str) : str := rstrip (lstrip s).

(** [s.split(sep)] for a one-character separator: never empty, the parts
    hold no [sep]. *)
Fixpoint split (sep : char) (s : str) : list str :=
  match s with
  | [] => [[]]
  | c :: s' =>
      if c =? sep then [] :: split sep s'
      else match split sep s' with
           | p :: ps => (c :: p) :: ps
           | [] => [[c]]
           end
  end.

(** [s.split()]: the maximal runs of non-whitespace characters. *)
Fixpoint split_whitespace (s : str) : list str :=
  match s with
  | [] => []
  | c :: s' =>
      if isspace c then split_whitespace s'
      else match s' with
           | [] => [[c]]
           | c' :: _ =>
               if isspace c' then [c] :: split_whitespace s'
               else match split_whitespace s' with
                    | w :: ws => (c :: w) :: ws
                    | [] => [[c]]
                    end
           end
  end.

(** [c in s]. *)
Definition contains (c : char) (s : str) : bool := existsb (N.eqb c) s.

(** ** Regular expressions

    The fragment of Python's [re] syntax that the patterns of
    [identify_field_names] use.  Every repetition in them is over a single
    character class, greedy and unbounded above. *)

Inductive regex : Type :=
  | Bol                                  (* ^ *)
  | Eol                                  (* $ *)
  | Cls (p : char -> bool)               (* one character of a class *)
  | Rep (p : char -> bool) (min : nat)   (* [..]* (0), [..]+ (1), [..]{n,} *)
  | Seq (r1 r2 : regex)                  (* r1 r2 *)
  | Alt (r1 r2 : regex)                  (* (?:r1|r2) *)
  | Grp (i : nat) (r : regex).           (* the i-th capturing group *)

Declare Scope regex_scope.
Delimit Scope regex_scope with re.
Bind Scope regex_scope with regex.
Notation "r1 ⋅ r2" := (Seq r1 r2) (at level 45, right associativity) : regex_scope.

(** The state of a match attempt: characters consumed so far, the rest of
    the subject, and the groups captured so far (latest first). *)
Record mstate : Type := MState {
  pos : nat;
  rest : str;
  caps : list (nat * str)
}.

(** A greedy repetition: take as many characters of the class as there are,
    then give them back one at a time, down to [min], until the rest of the
    pattern (the continuation [k]) matches. *)
Fixpoint rep_greedy {R} (p : char -> bool) (min : nat) (i : nat) (s : str)
    (k : nat -> str -> option R) : option R :=
  let stop := if (min =? 0)%nat then k i s else None in
  match s with
  | c :: s' =>
      if p c then
        match rep_greedy p (Nat.pred min) (S i) s' k with
        | Some m => Some m
        | None => stop
        end
      else stop
  | [] => stop
  end.

(** The backtracking matcher, in continuation-passing style: [k] is the rest
    of the pattern. Without the MULTILINE flag [^] matches at the start of
    the subject only, and [$] at its end or before a final newline. *)
Fixpoint re_match (r : regex) (st : mstate) (k : mstate -> option mstate)
    : option mstate :=
  match r with
  | Bol => if (pos st =? 0)%nat then k st else None
  | Eol =>
      match rest st with
      | [] => k st
      | [c] => if c =? 10 then k st else None
      | _ => None
      end
  | Cls p =>
      match rest st with
      | c :: s' => if p c then k (MState (S (pos st)) s' (caps st)) else None
      | [] => None
      end
  | Rep p min =>
      rep_greedy p min (pos st) (rest st) (fun i s => k (MState i s (caps st)))
  | Seq r1 r2 => re_match r1 st (fun st' => re_match r2 st' k)
  | Alt r1 r2 =>
      match re_match r1 st k with
      | Some m => Some m
      | None => re_match r2 st k
      end
  | Grp i r =>
      re_match r st (fun st' =>
        k (MState (pos st') (rest st')
             ((i, take (pos st' - pos st) (rest st)) :: caps st')))
  end.

(** [re.search(pattern, s)]: the first match, trying every start position
    from the left. *)
Fixpoint search_from (r : regex) (i : nat) (s : str) : option mstate :=
  match re_match r (MState i s []) Some with
  | Some m => Some m
  | None =>
      match s with
      | [] => None
      | _ :: s' => search_from r (S i) s'
      end
  end.

Definition re_search (r : regex) (s : str) : option mstate := search_from r 0 s.

(** [match.group(i)]: the text of the i-th group. In the patterns below
    group 1 is on every path to a match (see [group_captured]). *)
Definition group (i : nat) (m : mstate) : str :=
  match list_find (fun c => fst c = i) (caps m) with
  | Some (_, (_, g)) => g
  | None => []
  end.

(** ** The patterns of [identify_field_names] *)

Definition one (a : ascii) (c : char) : bool := c =? chr a.

Definition between (a b : ascii) (c : char) : bool :=
  (chr a <=? c) && (c <=? chr b).

(** [[A-Z]] *)
Definition upper_AZ : char -> bool := between "A" "Z".

(** [[A-Za-z\s&/\-,()]] *)
Definition label_char (c : char) : bool :=
  between "A" "Z" c || between "a" "z" c || isspace c ||
  one "&" c || one "/" c || one "-" c || one "," c || one "(" c || one ")" c.

(** [[☐□○◯O]]: U+2610, U+25A1, U+25CB, U+25EF and the capital letter O. *)
Definition checkbox_glyph (c : char) : bool :=
  (c =? 0x2610) || (c =? 0x25A1) || (c =? 0x25CB) || (c =? 0x25EF) || one "O" c.

(** [([A-Z][A-Za-z\s&/\-,()]+)] *)
Definition label : regex := Grp 1 (Cls upper_AZ ⋅ Rep label_char 1).

(** [^([A-Z][A-Za-z\s&/\-,()]+):\s*$] *)
Definition colon_pattern : regex :=
  (Bol ⋅ label ⋅ Cls (one ":") ⋅ Rep isspace 0 ⋅ Eol)%re.

(** [^([A-Z][A-Za-z\s&/\-,()]+)\s+_{2,}] *)
Definition underscore_pattern : regex :=
  (Bol ⋅ label ⋅ Rep isspace 1 ⋅ Rep (one "_") 2)%re.

(** [^\d+\.\s+([A-Z][A-Za-z\s&/\-,()]+)(?::|$)] *)
Definition numbered_pattern : regex :=
  (Bol ⋅ Rep isdecimal 1 ⋅ Cls (one ".") ⋅ Rep isspace 1 ⋅ label ⋅
   Alt (Cls (one ":")) Eol)%re.

(** [^[☐□○◯O]\s+([A-Z][A-Za-z\s&/\-,()]+)] *)
Definition checkbox_pattern : regex :=
  (Bol ⋅ Cls checkbox_glyph ⋅ Rep isspace 1 ⋅ label)%re.

(** ** [identify_field_names] *)

(** [if lo < len(field_name) and len(field_name) < 100: append]. *)
Definition accept (lo : nat) (field_name : str) : option str :=
  if ((lo <? length field_name)%nat && (length field_name <? 100)%nat)%bool
  then Some field_name else None.

(** Pattern 5: the guard [line and line[0].isupper() and ':' in line] ... *)
Definition fallback_guard (line : str) : bool :=
  match line with
  | [] => false
  | c :: _ => isupper c && contains (chr ":") line
  end.

(** ... and its body. *)
Definition fallback_field (line : str) : option str :=
  let parts := split (chr ":") line in
  if (2 <=? length parts)%nat then
    let field_name := strip (hd [] parts) in
    if ((length (split_whitespace field_name) <=? 8)%nat
        && (length field_name <? 100)%nat)%bool
    then Some field_name else None
  else None.

(** What one iteration of the loop over the lines does: the line is blank
    and skipped; or it is claimed by the first rule whose condition holds,
    which appends a field name or not and moves on ([continue]); or no rule
    applies. *)
Inductive outcome : Type :=
  | Blank
  | Claimed (rule : nat) (appended : option str)
  | Unmatched.

Definition rule_field (lo : nat) (m : mstate) : option str :=
  accept lo (strip (group 1 m)).

Definition classify_line (line0 : str) : outcome :=
  let line := strip line0 in
  match line with
  | [] => Blank
  | _ :: _ =>
    match re_search colon_pattern line with
    | Some m => Claimed 1 (rule_field 3 m)
    | None =>
    match re_search underscore_pattern line with
    | Some m => Claimed 2 (rule_field 3 m)
    | None =>
    match re_search numbered_pattern line with
    | Some m => Claimed 3 (rule_field 3 m)
    | None =>
    match re_search checkbox_pattern line with
    | Some m => Claimed 4 (rule_field 2 m)
    | None =>
      if fallback_guard line then Claimed 5 (fallback_field line)
      else Unmatched
    end end end end
  end.

(** The field name, if any, that the iteration appends to [field_names]. *)
Definition appended_by (o : outcome) : option str :=
  match o with
  | Claimed _ f => f
  | _ => None
  end.

Definition classify (line : str) : option str := appended_by (classify_line line).

(** The loop: [field_names] starts empty and grows at its end. *)
Definition identify_field_names (text : str) : list str :=
  fold_left
    (fun field_names line =>
       match classify line with
       | Some field_name => field_names ++ [field_name]
       | None => field_names
       end)
    (split (chr "010") text) [].

(** What a rule appends when it is tried alone, outside the cascade. *)
Definition rule_alone (pattern : regex) (lo : nat) (line : str) : option str :=
  match re_search pattern line with
  | Some m => rule_field lo m
  | None => None
  end.

Definition fallback_alone (line : str) : option str :=
  if fallback_guard line then fallback_field line else None.

(** The OCR text of the end-to-end scenario: five lines, one per rule. *)
Definition scenario : str :=
  lit "Named Insured:" ++ [10] ++
  lit "Address ________" ++ [10] ++
  lit "1. Policy Number" ++ [10] ++
  [0x2610] ++ lit " Yes" ++ [10] ++
  lit "Effective Date: 01/01/2024".

(** ** [extract_fields], [save_results] and [main] *)

(** [sorted(names)]: strings compare by code points, lexicographically. *)
Fixpoint str_leb (s t : str) : bool :=
  match s, t with
  | [], _ => true
  | _ :: _, [] => false
  | a :: s', b :: t' =>
      if a <? b then true else if b <? a then false else str_leb s' t'
  end.

Definition str_le (s t : str) : Prop := str_leb s t = true.

#[global] Instance str_le_dec : RelDecision str_le.
Proof. intros s t. unfold str_le. apply _. Defined.

Definition sorted (names : list str) : list str := merge_sort str_le names.

(** [sorted(self.field_names)]. *)
Definition sorted_fields (field_names : gset str) : list str :=
  sorted (elements field_names).

(** [self.field_names.update(fields)]. *)
Definition update (field_names : gset str) (fields : list str) : gset str :=
  field_names ∪ list_to_set fields.

(** The set that the pages with the given OCR texts leave, from empty. *)
Definition aggregate (texts : list str) : gset str :=
  foldl (fun field_names text => update field_names (identify_field_names text))
    ∅ texts.

(** [str(n)] for a natural number, as in an f-string. *)
Definition decimal (n : nat) : str := lit (NilEmpty.string_of_uint (Nat.to_uint n)).

(** [enumerate(l, start)]. *)
Fixpoint enumerate {A} (l : list A) (start : nat) : list (nat * A) :=
  match l with
  | [] => []
  | x :: l' => (start, x) :: enumerate l' (S start)
  end.

(** What can be raised: [sys.exit(code)], which no [except Exception]
    catches, or an ordinary exception. *)
Inductive raised : Type :=
  | SystemExit (code : N)
  | Exception.

(** The output file: [None] when there is none, else the chunks written to
    it, in order. *)
Definition file : Type := option (list str).

(** Computations that write the output file and may raise.  Of the calls
    of [print] those of plain ASCII text, which every encoding of the
    standard output takes, are left out. *)
Definition M (A : Type) : Type := file -> (raised + A) * file.

Definition ret {A} (x : A) : M A := fun w => (inr x, w).

Definition bind {A B} (c : M A) (f : A -> M B) : M B :=
  fun w =>
    match c w with
    | (inl e, w') => (inl e, w')
    | (inr x, w') => f x w'
    end.

Definition raise {A} (e : raised) : M A := fun w => (inl e, w).

(** [try: c  except Exception: h] *)
Definition try_except {A} (c : M A) (h : M A) : M A :=
  fun w =>
    match c w with
    | (inl Exception, w') => h w'
    | r => r
    end.

(** What UTF-8 encodes: every code point but the surrogates. *)
Definition utf8_encodable (c : char) : bool :=
  negb ((0xD800 <=? c) && (c <=? 0xDFFF)).

Definition encodable (s : str) : bool := forallb utf8_encodable s.

(** [open(path, 'w', encoding='utf-8')] creates or truncates the file, or
    raises and leaves it as it was ([ok] says which). *)
Definition open_w (ok : bool) : M unit :=
  fun w => if ok then (inr tt, Some []) else (inl Exception, w).

(** [f.write(s)] adds the chunk to the file, or raises, adding nothing, when
    the chunk has a character that UTF-8 cannot encode; what was written
    before stays, as the [with] block closes the file. *)
Definition write (s : str) : M unit :=
  fun w =>
    if encodable s then (inr tt, Some (default [] w ++ [s]))
    else (inl Exception, w).

(** [print(s)] on a standard output that takes the ASCII characters and
    those of [encodes]: it raises on any other character. *)
Definition printable (encodes : char -> bool) (s : str) : bool :=
  forallb (fun c => (c <? 128) || encodes c) s.

Definition print (encodes : char -> bool) (s : str) : M unit :=
  fun w => if printable encodes s then (inr tt, w) else (inl Exception, w).

(** What [parser.parse_args()] does: it returns the arguments, or ends the
    process with status 2 (a usage error) or 0 (after [-h]). *)
Inductive parsed : Type :=
  | Args
  | Usage_error
  | Help.

(** What a run meets besides the PDF and its pages. *)
Record host : Type := Host {
  parse_args : parsed;
  output_path : option str; (* str(self.output_path) as __init__ sets it;
                               None: with_suffix raised, the PDF path has an
                               empty name *)
  opens : bool;             (* open(self.output_path, 'w') succeeds *)
  stdout_encodes : char -> bool
}.

(** The chunks that get written: those before the first one that UTF-8
    cannot encode. *)
Fixpoint written (chunks : list str) : list str :=
  match chunks with
  | [] => []
  | s :: chunks' => if encodable s then s :: written chunks' else []
  end.

Notation "'let*' x ':=' c1 'in' c2" := (bind c1 (fun x => c2))
  (at level 10, x name, c1 at level 100, c2 at level 200).
Notation "c1 ;;; c2" := (bind c1 (fun _ => c2))
  (at level 100, c2 at level 200, right associativity).

Fixpoint for_each {A} (l : list A) (body : A -> M unit) : M unit :=
  match l with
  | [] => ret tt
  | x :: l' => body x ;;; for_each l' body
  end.

Section Pipeline.

(** The external collaborators: page images, the rasterizer and the OCR
    of one page (preprocessing and Tesseract), each of which may raise. *)
Context {Image : Type}.

Record env : Type := Env {
  pdf_exists : bool;                       (* self.pdf_path.exists() *)
  pdf_name : str;                          (* self.pdf_path.name *)
  convert_from_path : option (list Image); (* None: the rasterizer raised *)
  extract_text_from_image : Image -> option str (* None: it raised *)
}.

Variable h : host.
Variable e : env.

(** [ACORDFieldExtractor.__init__]: it returns the new object's
    [output_path]; its [field_names] is the empty set. *)
Definition init : M str :=
  if pdf_exists e then
    match output_path h with
    | Some path => ret path
    | None => raise Exception
    end
  else raise Exception.

(** The loop of [extract_fields] over the page images. *)
Fixpoint process_pages (images : list Image) (field_names : gset str)
    : M (gset str) :=
  match images with
  | [] => ret field_names
  | image :: images' =>
      match extract_text_from_image e image with
      | None => raise Exception
      | Some text =>
          let fields := identify_field_names text in
          process_pages images' (update field_names fields)
      end
  end.

Definition extract_fields (field_names : gset str) : M (gset str) :=
  match convert_from_path e with
  | None => raise (SystemExit 1)
  | Some images => process_pages images field_names
  end.

(** The chunks [save_results] writes. *)
Definition report_header (sorted_fields : list str) : list str :=
  [ lit "ACORD Form Field Names" ++ [10];
    replicate 50 (chr "=") ++ [10];
    lit "Source: " ++ pdf_name e ++ [10];
    lit "Total Fields Found: " ++ decimal (length sorted_fields) ++ [10];
    replicate 50 (chr "=") ++ [10; 10] ].

Definition report_line (entry : nat * str) : str :=
  decimal (fst entry) ++ lit ". " ++ snd entry ++ [10].

(** The texts with U+2713 that are printed. *)
Definition saved_message (path : str) : str :=
  [10; 0x2713] ++ lit " Results saved to: " ++ path.

Definition total_message (n : nat) : str :=
  [0x2713] ++ lit " Total unique fields found: " ++ decimal n.

Definition complete_message : str := [10; 0x2713] ++ lit " Extraction complete!".

(** Whether the standard output takes the three of them. *)
Definition messages_printable (path : str) (n : nat) : bool :=
  printable (stdout_encodes h) (saved_message path) &&
  printable (stdout_encodes h) (total_message n) &&
  printable (stdout_encodes h) complete_message.

Definition save_results (path : str) (field_names : gset str) : M unit :=
  let sorted_fields := sorted_fields field_names in
  open_w (opens h) ;;;
  for_each (report_header sorted_fields) write ;;;
  for_each (enumerate sorted_fields 1) (fun entry => write (report_line entry)) ;;;
  print (stdout_encodes h) (saved_message path) ;;;
  print (stdout_encodes h) (total_message (length sorted_fields)).

(** [main]: the exit status of the process.  [parse_args] comes before the
    [try]; the handler prints to the standard error, which replaces what it
    cannot encode, and exits with status 1. *)
Definition main : M N :=
  match parse_args h with
  | Usage_error => raise (SystemExit 2)
  | Help => raise (SystemExit 0)
  | Args =>
      try_except
        (let* path := init in
         let* field_names := extract_fields ∅ in
         save_results path field_names ;;;
         print (stdout_encodes h) complete_message ;;;
         ret 0)
        (raise (SystemExit 1))
  end.

(** The process: its exit status and the output file it leaves. *)
Definition run (before : file) : N * file :=
  match main before with
  | (inr code, w) => (code, w)
  | (inl (SystemExit code), w) => (code, w)
  | (inl Exception, w) => (1, w)
  end.

(** The whole report, as [save_results] writes it for a set of names. *)
Definition report (field_names : gset str) : list str :=
  let sorted_fields := sorted_fields field_names in
  report_header sorted_fields ++ map report_line (enumerate sorted_fields 1).

End Pipeline.

Arguments env : clear implicits.

(** The members of a table of ranges, one by one. *)
Definition range_members (r : N * N) : list N :=
  map N.of_nat (seq (N.to_nat (fst r)) (S (N.to_nat (snd r) - N.to_nat (fst r)))).


(** * Properties *)

Local Close Scope N_scope.

Arguments chr : simpl never.
Arguments isspace : simpl never.
Arguments isdecimal : simpl never.
Arguments isupper : simpl never.

(** ** Stripping *)

Lemma lstrip_nonspace c t : isspace c = false -> lstrip (c :: t) = c :: t.
Proof. intros H. simpl. now rewrite H. Qed.

Lemma lstrip_head s c t : lstrip s = c :: t -> isspace c = false.
Proof.
  induction s as [|a s IH]; simpl; [discriminate|].
  destruct (isspace a) eqn:Ha; [exact IH|].
  intros [= -> _]. exact Ha.
Qed.

Lemma lstrip_idem s : lstrip (lstrip s) = lstrip s.
Proof.
  destruct (lstrip s) as [|c t] eqn:E; [reflexivity|].
  apply lstrip_nonspace. eapply lstrip_head, E.
Qed.

Lemma lstrip_spaces ws s : forallb isspace ws = true -> lstrip (ws ++ s) = lstrip s.
Proof.
  induction ws as [|w ws IH]; simpl; [reflexivity|].
  intros [Hw Hws]%andb_prop. rewrite Hw. auto.
Qed.

Lemma lstrip_snoc u c : isspace c = false -> lstrip (u ++ [c]) = lstrip u ++ [c].
Proof.
  intros Hc. induction u as [|a u IH]; simpl.
  - now rewrite Hc.
  - destruct (isspace a); [exact IH | reflexivity].
Qed.

Lemma rstrip_cons c t : isspace c = false -> rstrip (c :: t) = c :: rstrip t.
Proof.
  intros Hc. unfold rstrip. simpl rev. rewrite lstrip_snoc by exact Hc.
  rewrite rev_app_distr. reflexivity.
Qed.

Lemma rstrip_idem s : rstrip (rstrip s) = rstrip s.
Proof. unfold rstrip. now rewrite rev_involutive, lstrip_idem. Qed.

Lemma rstrip_spaces s ws : forallb isspace ws = true -> rstrip (s ++ ws) = rstrip s.
Proof.
  intros H. unfold rstrip. rewrite rev_app_distr. rewrite lstrip_spaces; [reflexivity|].
  rewrite forallb_forall in *. intros x Hx. apply H. now apply in_rev.
Qed.

Lemma rstrip_snoc s c : isspace c = false -> rstrip (s ++ [c]) = s ++ [c].
Proof.
  intros Hc. unfold rstrip. rewrite rev_app_distr. simpl.
  rewrite Hc. simpl. now rewrite rev_involutive.
Qed.

(** The result of [strip()] is stripped. *)
Lemma strip_idem s : strip (strip s) = strip s.
Proof.
  unfold strip. destruct (lstrip s) as [|c t] eqn:E; [reflexivity|].
  pose proof (lstrip_head _ _ _ E) as Hc.
  rewrite (rstrip_cons _ _ Hc), (lstrip_nonspace _ _ Hc), <- (rstrip_cons _ _ Hc).
  apply rstrip_idem.
Qed.

(** Whitespace after a string does not survive [strip()]. *)
Lemma strip_spaces s ws : forallb isspace ws = true -> strip (s ++ ws) = strip s.
Proof.
  intros H. unfold strip. induction s as [|a s IH].
  - simpl app. rewrite <- (app_nil_r ws), lstrip_spaces by exact H. reflexivity.
  - simpl. destruct (isspace a); [exact IH|].
    rewrite app_comm_cons. now apply rstrip_spaces.
Qed.

Lemma lstrip_length s : length (lstrip s) <= length s.
Proof.
  induction s as [|c s IH]; simpl; [lia|]. destruct (isspace c); simpl; lia.
Qed.

Lemma strip_length s : length (strip s) <= length s.
Proof.
  unfold strip, rstrip. rewrite length_rev.
  etransitivity; [apply lstrip_length|]. rewrite length_rev. apply lstrip_length.
Qed.

(** A string that starts and ends with a non-blank is its own [strip()]. *)
Lemma strip_id c s d :
  isspace c = false -> isspace d = false -> strip (c :: s ++ [d]) = c :: s ++ [d].
Proof.
  intros Hc Hd. unfold strip. rewrite lstrip_nonspace by exact Hc.
  rewrite app_comm_cons. now apply rstrip_snoc.
Qed.


(** ** The matcher *)

Section RepGreedy.
Context {R : Type} (p : char -> bool).

(** A greedy repetition fails when the continuation fails at every point
    it can stop at. *)
Lemma rep_greedy_None s : forall min i (k : nat -> str -> option R),
  (forall j, min <= j <= length s -> forallb p (take j s) = true ->
             k (i + j) (drop j s) = None) ->
  rep_greedy p min i s k = None.
Proof.
  induction s as [|c s IH]; intros min i k Hk; simpl.
  - destruct (Nat.eqb_spec min 0) as [->|]; [|reflexivity].
    specialize (Hk 0). rewrite Nat.add_0_r in Hk. apply Hk; simpl; [lia|reflexivity].
  - assert (Hstop : (if min =? 0 then k i (c :: s) else None) = None).
    { destruct (Nat.eqb_spec min 0) as [->|]; [|reflexivity].
      specialize (Hk 0). rewrite Nat.add_0_r in Hk. apply Hk; simpl; [lia|reflexivity]. }
    destruct (p c) eqn:Hc; [|exact Hstop].
    rewrite IH; [exact Hstop|].
    intros j Hj Hp. specialize (Hk (S j)).
    rewrite Nat.add_succ_r in Hk. apply Hk; simpl; [lia|].
    now rewrite Hc.
Qed.

(** It stops at the longest run of the class, of at least [min]
    characters, after which the continuation matches. *)
Lemma rep_greedy_Some s : forall min i (k : nat -> str -> option R) j m,
  min <= j <= length s -> forallb p (take j s) = true ->
  k (i + j) (drop j s) = Some m ->
  (forall j', j < j' <= length s -> forallb p (take j' s) = true ->
              k (i + j') (drop j' s) = None) ->
  rep_greedy p min i s k = Some m.
Proof.
  induction s as [|c s IH]; intros min i k j m Hj Hp Hm Hlater; simpl.
  - simpl in Hj. assert (j = 0) as -> by lia. assert (min = 0) as -> by lia.
    simpl. now rewrite Nat.add_0_r in Hm.
  - destruct j as [|j].
    + assert (min = 0) as -> by lia. simpl.
      rewrite Nat.add_0_r in Hm. simpl in Hm.
      destruct (p c) eqn:Hc; [|exact Hm].
      rewrite rep_greedy_None; [exact Hm|].
      intros j Hj' Hp'. specialize (Hlater (S j)).
      rewrite Nat.add_succ_r in Hlater. apply Hlater; simpl; [lia|].
      now rewrite Hc.
    + simpl in Hp. apply andb_prop in Hp as [Hc Hp]. rewrite Hc.
      rewrite (IH (Nat.pred min) (S i) k j m); [reflexivity| simpl in Hj; lia | exact Hp | |].
      * simpl in Hm. now rewrite Nat.add_succ_r in Hm.
      * intros j' Hj' Hp'. specialize (Hlater (S j')).
        rewrite Nat.add_succ_r in Hlater. apply Hlater; simpl; [simpl in Hj'; lia|].
        now rewrite Hc.
Qed.

(** Where it matched, the continuation matched after a run of the class. *)
Lemma rep_greedy_inv s : forall min i (k : nat -> str -> option R) m,
  rep_greedy p min i s k = Some m ->
  exists j, min <= j <= length s /\ forallb p (take j s) = true /\
            k (i + j) (drop j s) = Some m.
Proof.
  induction s as [|c s IH]; intros min i k m; simpl.
  - destruct (Nat.eqb_spec min 0) as [->|]; [|discriminate].
    intros H. exists 0. rewrite Nat.add_0_r. simpl. auto.
  - assert (Hstop : (if min =? 0 then k i (c :: s) else None) = Some m ->
              exists j, min <= j <= length (c :: s) /\
                forallb p (take j (c :: s)) = true /\
                k (i + j) (drop j (c :: s)) = Some m).
    { destruct (Nat.eqb_spec min 0) as [->|]; [|discriminate].
      intros H. exists 0. rewrite Nat.add_0_r. simpl. split; [lia|auto]. }
    destruct (p c) eqn:Hc; [|exact Hstop].
    destruct (rep_greedy p (Nat.pred min) (S i) s k) as [m'|] eqn:E; [|exact Hstop].
    intros [= ->]. apply IH in E as (j & Hj & Hp & Hm).
    exists (S j). simpl. rewrite Hc, Nat.add_succ_r. split; [lia|auto].
Qed.

End RepGreedy.

(** A pattern that starts with [^] matches at the start of the subject
    or nowhere. *)
Lemma search_from_Bol r s : forall i, search_from (Bol ⋅ r) (S i) s = None.
Proof. induction s as [|c s IH]; intros i; simpl; [reflexivity | apply IH]. Qed.

Lemma re_search_Bol r s :
  re_search (Bol ⋅ r) s = re_match r (MState 0 s []) Some.
Proof.
  unfold re_search. destruct s as [|c s]; simpl.
  - now destruct (re_match r _ _).
  - destruct (re_match r _ _); [reflexivity | apply search_from_Bol].
Qed.

(** ** The patterns *)

(** Where the label group matched, it captured an uppercase letter and a
    run of label characters, and the rest of the pattern matched after it. *)
Lemma label_inv st k m :
  re_match label st k = Some m ->
  exists c g s', rest st = c :: g ++ s' /\ upper_AZ c = true /\
    forallb label_char g = true /\ 1 <= length g /\
    k (MState (S (pos st) + length g) s' ((1, c :: g) :: caps st)) = Some m.
Proof.
  unfold label. cbn [re_match].
  destruct (rest st) as [|c s] eqn:Hs; [discriminate|].
  destruct (upper_AZ c) eqn:Hc; [|discriminate].
  cbn [pos rest caps].
  intros (j & Hj & Hp & Hm)%rep_greedy_inv.
  exists c, (take j s), (drop j s).
  rewrite take_drop, length_take_le by lia.
  replace (S (pos st) + j - pos st) with (S j) in Hm by lia.
  change (take (S j) (c :: s)) with (c :: take j s) in Hm.
  repeat split; auto; lia.
Qed.

(** The label group matches greedily: at the longest run of label characters
    after which the rest of the pattern matches. *)
Lemma label_Some st c s j k m :
  rest st = c :: s -> upper_AZ c = true ->
  1 <= j <= length s -> forallb label_char (take j s) = true ->
  k (MState (S (pos st) + j) (drop j s) ((1, c :: take j s) :: caps st)) = Some m ->
  (forall j', j < j' <= length s -> forallb label_char (take j' s) = true ->
     k (MState (S (pos st) + j') (drop j' s) ((1, c :: take j' s) :: caps st)) = None) ->
  re_match label st k = Some m.
Proof.
  intros Hs Hc Hj Hp Hm Hlater. unfold label. cbn [re_match].
  rewrite Hs, Hc. cbn [pos rest caps].
  apply rep_greedy_Some with (j := j); [exact Hj | exact Hp | |].
  - replace (S (pos st) + j - pos st) with (S j) by lia. exact Hm.
  - intros j' Hj' Hp'. replace (S (pos st) + j' - pos st) with (S j') by lia.
    now apply Hlater.
Qed.

Lemma label_None st k :
  (forall c s j, rest st = c :: s -> upper_AZ c = true ->
     1 <= j <= length s -> forallb label_char (take j s) = true ->
     k (MState (S (pos st) + j) (drop j s) ((1, c :: take j s) :: caps st)) = None) ->
  re_match label st k = None.
Proof.
  intros Hk. unfold label. cbn [re_match].
  destruct (rest st) as [|c s] eqn:Hs; [reflexivity|].
  destruct (upper_AZ c) eqn:Hc; [|reflexivity].
  cbn [pos rest caps]. apply rep_greedy_None. intros j Hj Hp.
  replace (S (pos st) + j - pos st) with (S j) by lia. now apply Hk.
Qed.

Lemma colon_inv l m :
  re_search colon_pattern l = Some m ->
  exists c g sp tl, l = c :: g ++ chr ":" :: sp ++ tl /\ upper_AZ c = true /\
    forallb label_char g = true /\ 1 <= length g /\
    forallb isspace sp = true /\ (tl = [] \/ tl = [10%N]) /\
    group 1 m = c :: g.
Proof.
  unfold colon_pattern. rewrite re_search_Bol.
  cbn [re_match].
  intros (c & g & s' & Hl & Hc & Hg & Hlen & Hm)%label_inv.
  cbn [pos rest caps] in *.
  destruct s' as [|d s']; [discriminate|].
  destruct (one ":" d) eqn:Hd; [|discriminate].
  apply rep_greedy_inv in Hm as (j & Hj & Hp & Hm).
  apply N.eqb_eq in Hd as ->.
  exists c, g, (take j s'), (drop j s'). rewrite take_drop.
  destruct (drop j s') as [|x [|y t]] eqn:Hd; [| destruct (N.eqb_spec x 10) as [->|] |];
    inversion Hm; subst m; repeat split; auto.
Qed.

Lemma underscore_inv l m :
  re_search underscore_pattern l = Some m ->
  exists c g sp tl, l = c :: g ++ sp ++ chr "_" :: chr "_" :: tl /\
    upper_AZ c = true /\ forallb label_char g = true /\ 1 <= length g /\
    forallb isspace sp = true /\ 1 <= length sp /\
    group 1 m = c :: g.
Proof.
  unfold underscore_pattern. rewrite re_search_Bol.
  cbn [re_match].
  intros (c & g & s' & Hl & Hc & Hg & Hlen & Hm)%label_inv.
  cbn [pos rest caps] in *.
  apply rep_greedy_inv in Hm as (j & Hj & Hp & Hm).
  pose proof Hm as (j2 & Hj2 & Hp2 & _)%rep_greedy_inv.
  destruct (drop j s') as [|u1 [|u2 t]] eqn:Hd; simpl in Hj2; try lia.
  destruct j2 as [|[|j2]]; try lia.
  simpl in Hp2. apply andb_prop in Hp2 as [->%N.eqb_eq Hp2].
  apply andb_prop in Hp2 as [->%N.eqb_eq _].
  exists c, g, (take j s'), t.
  rewrite <- Hd, take_drop, length_take_le by lia.
  apply rep_greedy_inv in Hm as (j3 & _ & _ & Hm).
  inversion Hm. repeat split; auto; lia.
Qed.

Lemma numbered_head l m :
  re_search numbered_pattern l = Some m ->
  exists c t, l = c :: t /\ isdecimal c = true.
Proof.
  unfold numbered_pattern. rewrite re_search_Bol.
  cbn [re_match pos rest caps].
  intros (j & Hj & Hp & _)%rep_greedy_inv.
  destruct l as [|c t]; simpl in Hj; [lia|].
  destruct j; [lia|]. simpl in Hp. apply andb_prop in Hp as [Hc _]. eauto.
Qed.

Lemma checkbox_head l m :
  re_search checkbox_pattern l = Some m ->
  exists c t, l = c :: t /\ checkbox_glyph c = true.
Proof.
  unfold checkbox_pattern. rewrite re_search_Bol.
  cbn [re_match pos rest caps].
  destruct l as [|c t]; [discriminate|].
  destruct (checkbox_glyph c) eqn:Hc; [eauto | discriminate].
Qed.

(** Group 1 is on every path to a match: a match of any of the four
    patterns captured a label of two or more characters. *)
Lemma group_captured pattern l m :
  pattern = colon_pattern \/ pattern = underscore_pattern \/
  pattern = numbered_pattern \/ pattern = checkbox_pattern ->
  re_search pattern l = Some m ->
  exists c g, caps m = [(1, c :: g)] /\ upper_AZ c = true /\
    forallb label_char g = true /\ 1 <= length g.
Proof.
  intros [->|[->|[->| ->]]];
    [unfold colon_pattern | unfold underscore_pattern | unfold numbered_pattern |
     unfold checkbox_pattern];
    rewrite re_search_Bol; cbn [re_match pos rest caps].
  - intros (c & g & s' & _ & Hc & Hg & Hlen & Hm)%label_inv.
    cbn [pos rest caps] in Hm. exists c, g.
    destruct s' as [|d s']; [discriminate|]. destruct (one ":" d); [|discriminate].
    apply rep_greedy_inv in Hm as (j & _ & _ & Hm).
    destruct (drop j s') as [|x [|y t]]; [| destruct (x =? 10)%N |];
      inversion Hm; auto.
  - intros (c & g & s' & _ & Hc & Hg & Hlen & Hm)%label_inv.
    cbn [pos rest caps] in Hm. exists c, g.
    apply rep_greedy_inv in Hm as (j & _ & _ & Hm).
    apply rep_greedy_inv in Hm as (j' & _ & _ & Hm). inversion Hm; auto.
  - intros (j & _ & _ & Hm)%rep_greedy_inv.
    destruct (drop j l) as [|d s]; [discriminate|].
    destruct (one "." d); [|discriminate].
    apply rep_greedy_inv in Hm as (j' & _ & _ & Hm).
    apply label_inv in Hm as (c & g & s' & _ & Hc & Hg & Hlen & Hm).
    cbn [pos rest caps] in Hm. exists c, g.
    destruct s' as [|x [|y t]]; [| destruct (one ":" x), (x =? 10)%N | destruct (one ":" x)];
      inversion Hm; auto.
  - destruct l as [|d s]; [discriminate|].
    destruct (checkbox_glyph d); [|discriminate].
    intros (j & _ & _ & Hm)%rep_greedy_inv.
    apply label_inv in Hm as (c & g & s' & _ & Hc & Hg & Hlen & Hm).
    exists c, g. inversion Hm; auto.
Qed.

(** ** Character classes *)

Lemma range_forall (P : N -> bool) (lo n : nat) :
  forallb P (map N.of_nat (seq lo n)) = true ->
  forall c, (N.of_nat lo <= c < N.of_nat (lo + n))%N -> P c = true.
Proof.
  intros H c Hc. rewrite forallb_forall in H. apply H.
  rewrite <- (N2Nat.id c). apply in_map, in_seq. lia.
Qed.

Lemma upper_AZ_range c : upper_AZ c = true -> (65 <= c < 91)%N.
Proof.
  unfold upper_AZ, between. intros [H1 H2]%andb_prop.
  apply N.leb_le in H1, H2. change (chr "A") with 65%N in H1.
  change (chr "Z") with 90%N in H2. lia.
Qed.

Lemma upper_AZ_isupper c : upper_AZ c = true -> isupper c = true.
Proof.
  intros H%upper_AZ_range.
  apply (range_forall isupper 65 26); [now vm_compute | exact H].
Qed.

Lemma upper_AZ_not_space c : upper_AZ c = true -> isspace c = false.
Proof.
  intros H%upper_AZ_range. apply negb_true_iff.
  apply (range_forall (fun c => negb (isspace c)) 65 26); [now vm_compute | exact H].
Qed.

Lemma upper_AZ_not_decimal c : upper_AZ c = true -> isdecimal c = false.
Proof.
  intros H%upper_AZ_range. apply negb_true_iff.
  apply (range_forall (fun c => negb (isdecimal c)) 65 26); [now vm_compute | exact H].
Qed.

Lemma checkbox_glyph_cases c :
  checkbox_glyph c = true ->
  c = 0x2610%N \/ c = 0x25A1%N \/ c = 0x25CB%N \/ c = 0x25EF%N \/ c = chr "O".
Proof.
  unfold checkbox_glyph, one. rewrite !orb_true_iff, !N.eqb_eq. tauto.
Qed.

Lemma checkbox_glyph_not_decimal c : checkbox_glyph c = true -> isdecimal c = false.
Proof.
  intros H%checkbox_glyph_cases.
  destruct H as [->|[->|[->|[->| ->]]]]; now vm_compute.
Qed.

Lemma isspace_label_char c : isspace c = true -> label_char c = true.
Proof. intros H. unfold label_char. rewrite H. now rewrite !orb_true_r. Qed.

Lemma label_char_not_colon : label_char (chr ":") = false.
Proof. now vm_compute. Qed.

Lemma label_char_not_underscore : label_char (chr "_") = false.
Proof. now vm_compute. Qed.

(** ** The rules exclude one another, but for the bullet [O] *)

Lemma colon_underscore_exclusive l m1 m2 :
  re_search colon_pattern l = Some m1 ->
  re_search underscore_pattern l = Some m2 -> False.
Proof.
  intros (c & g & sp & tl & Hl & Hc & Hg & _ & Hsp & Htl & _)%colon_inv
         (c' & g' & sp' & tl' & Hl' & _)%underscore_inv.
  assert (Hin : In (chr "_") l).
  { rewrite Hl'. right. apply in_or_app. right. apply in_or_app. right. now left. }
  rewrite Hl in Hin. rewrite forallb_forall in Hg, Hsp.
  destruct Hin as [->|Hin]; [discriminate Hc|].
  apply in_app_or in Hin as [Hin|[Hin|Hin]].
  - apply Hg in Hin. discriminate Hin.
  - discriminate Hin.
  - apply in_app_or in Hin as [Hin|Hin].
    + apply Hsp in Hin. discriminate Hin.
    + destruct Htl as [->| ->]; [destruct Hin | destruct Hin as [Hin|[]]; discriminate Hin].
Qed.

Lemma numbered_not_colon l m :
  re_search numbered_pattern l = Some m -> re_search colon_pattern l = None.
Proof.
  intros (c & t & -> & Hd)%numbered_head.
  destruct (re_search colon_pattern (c :: t)) as [m'|] eqn:E; [|reflexivity].
  apply colon_inv in E as (c' & g & sp & tl & [= <- _] & Hc & _).
  apply upper_AZ_not_decimal in Hc. congruence.
Qed.

Lemma numbered_not_underscore l m :
  re_search numbered_pattern l = Some m -> re_search underscore_pattern l = None.
Proof.
  intros (c & t & -> & Hd)%numbered_head.
  destruct (re_search underscore_pattern (c :: t)) as [m'|] eqn:E; [|reflexivity].
  apply underscore_inv in E as (c' & g & sp & tl & [= <- _] & Hc & _).
  apply upper_AZ_not_decimal in Hc. congruence.
Qed.

Lemma checkbox_not_numbered l m :
  re_search checkbox_pattern l = Some m -> re_search numbered_pattern l = None.
Proof.
  intros (c & t & -> & Hg)%checkbox_head.
  destruct (re_search numbered_pattern (c :: t)) as [m'|] eqn:E; [|reflexivity].
  apply numbered_head in E as (c' & t' & [= <- _] & Hd).
  apply checkbox_glyph_not_decimal in Hg. congruence.
Qed.

(** A pattern matches no empty line. *)
Lemma colon_nonempty l m : re_search colon_pattern l = Some m -> l <> [].
Proof. now intros (c & g & sp & tl & -> & _)%colon_inv. Qed.

Lemma underscore_nonempty l m : re_search underscore_pattern l = Some m -> l <> [].
Proof. now intros (c & g & sp & tl & -> & _)%underscore_inv. Qed.

Lemma numbered_nonempty l m : re_search numbered_pattern l = Some m -> l <> [].
Proof. now intros (c & t & -> & _)%numbered_head. Qed.

Lemma checkbox_nonempty l m : re_search checkbox_pattern l = Some m -> l <> [].
Proof. now intros (c & t & -> & _)%checkbox_head. Qed.

(** ** The loop *)

Lemma identify_field_names_omap text :
  identify_field_names text = omap classify (split (chr "010") text).
Proof.
  unfold identify_field_names.
  enough (H : forall ls acc,
    fold_left (fun field_names line =>
      match classify line with
      | Some field_name => field_names ++ [field_name]
      | None => field_names
      end) ls acc = acc ++ omap classify ls) by apply H.
  induction ls as [|l ls IH]; intros acc; simpl.
  - now rewrite app_nil_r.
  - rewrite IH. destruct (classify l); [|reflexivity].
    now rewrite <- app_assoc.
Qed.

Lemma split_no_sep sep s : contains sep s = false -> split sep s = [s].
Proof.
  induction s as [|c s IH]; simpl; [reflexivity|].
  intros [Hc Hs]%orb_false_elim. rewrite N.eqb_sym, Hc, IH by exact Hs. reflexivity.
Qed.

Lemma split_sep sep s : contains sep s = true -> 2 <= length (split sep s).
Proof.
  induction s as [|c s IH]; simpl; [discriminate|].
  rewrite (N.eqb_sym sep c). destruct (c =? sep)%N; simpl.
  - intros _. destruct s; simpl; [lia|]. destruct (_ =? _)%N; simpl; [lia|].
    destruct (split sep s); simpl; lia.
  - intros H%IH. destruct (split sep s); simpl in *; lia.
Qed.

(** A text of one line. *)
Lemma identify_one_line line :
  contains 10 line = false ->
  identify_field_names line = option_list (classify line).
Proof.
  intros H. rewrite identify_field_names_omap. change (chr "010") with 10%N.
  rewrite split_no_sep by exact H. simpl. now destruct (classify line).
Qed.

Lemma accept_length lo f f' : accept lo f = Some f' -> f' = f /\ lo < length f < 100.
Proof.
  unfold accept. destruct (_ <? _) eqn:E1; [|discriminate].
  destruct (length f <? 100) eqn:E2; [|discriminate].
  intros [= <-]. apply Nat.ltb_lt in E1, E2. auto.
Qed.

Lemma accept_None lo f : accept lo f = None <-> ~ (lo < length f < 100).
Proof.
  unfold accept. destruct (Nat.ltb_spec lo (length f)), (Nat.ltb_spec (length f) 100);
    simpl; split; intros; try discriminate; try lia; auto.
Qed.

(** ** The line classifier *)

(** C1: on the five-line scenario text the classifier returns the five
    names Named Insured, Address, Policy Number, Yes and Effective Date, the
    i-th line being claimed by rule i; as a set they are five candidates. *)
Theorem end_to_end_scenario :
  identify_field_names scenario =
    [lit "Named Insured"; lit "Address"; lit "Policy Number"; lit "Yes";
     lit "Effective Date"] /\
  map classify_line (split 10 scenario) =
    [Claimed 1 (Some (lit "Named Insured")); Claimed 2 (Some (lit "Address"));
     Claimed 3 (Some (lit "Policy Number")); Claimed 4 (Some (lit "Yes"));
     Claimed 5 (Some (lit "Effective Date"))] /\
  (list_to_set (identify_field_names scenario) : gset (list N)) =
    {[ lit "Named Insured"; lit "Address"; lit "Policy Number"; lit "Yes";
       lit "Effective Date" ]} /\
  size (list_to_set (identify_field_names scenario) : gset (list N)) = 5.
Proof.
  assert (H : identify_field_names scenario =
    [lit "Named Insured"; lit "Address"; lit "Policy Number"; lit "Yes";
     lit "Effective Date"]) by now vm_compute.
  split; [exact H|]. split; [now vm_compute|]. rewrite H. split.
  - simpl list_to_set. set_solver.
  - rewrite size_list_to_set; [reflexivity|].
    apply (bool_decide_unpack _). now vm_compute.
Qed.

(** Unfolds the cascade on a line that the pattern of hypothesis [H]
    matches; [Hne] says that the pattern matches no empty line. *)
Ltac cascade H Hne :=
  unfold classify_line; cbv zeta;
  destruct (strip _) eqn:?; [now apply Hne in H|].

(** What the loop does with a line that a pattern matches: the first of the
    four patterns to match claims the line. *)
Lemma classify_line_colon line m :
  re_search colon_pattern (strip line) = Some m ->
  classify_line line = Claimed 1 (rule_field 3 m).
Proof.
  intros H. cascade H colon_nonempty. now rewrite H.
Qed.

Lemma classify_line_underscore line m :
  re_search colon_pattern (strip line) = None ->
  re_search underscore_pattern (strip line) = Some m ->
  classify_line line = Claimed 2 (rule_field 3 m).
Proof.
  intros H1 H. cascade H underscore_nonempty. now rewrite H1, H.
Qed.

Lemma classify_line_numbered line m :
  re_search colon_pattern (strip line) = None ->
  re_search underscore_pattern (strip line) = None ->
  re_search numbered_pattern (strip line) = Some m ->
  classify_line line = Claimed 3 (rule_field 3 m).
Proof.
  intros H1 H2 H. cascade H numbered_nonempty. now rewrite H1, H2, H.
Qed.

Lemma classify_line_checkbox line m :
  re_search colon_pattern (strip line) = None ->
  re_search underscore_pattern (strip line) = None ->
  re_search numbered_pattern (strip line) = None ->
  re_search checkbox_pattern (strip line) = Some m ->
  classify_line line = Claimed 4 (rule_field 2 m).
Proof.
  intros H1 H2 H3 H. cascade H checkbox_nonempty. now rewrite H1, H2, H3, H.
Qed.

(** A line that rule 1's pattern matches also passes the guard of rule 5. *)
Lemma colon_fallback_guard l m :
  re_search colon_pattern l = Some m -> fallback_guard l = true.
Proof.
  intros (c & g & sp & tl & -> & Hc & _)%colon_inv. unfold fallback_guard.
  rewrite (upper_AZ_isupper _ Hc), andb_true_l. unfold contains.
  apply existsb_exists. exists (chr ":"). split; [|apply N.eqb_refl].
  right. apply in_or_app. right. now left.
Qed.

(** C2: a line that rule 1's pattern matches and that passes rule 5's guard
    is claimed by rule 1: it contributes rule 1's result, at most one field
    name, and rule 5 is not tried. *)
Theorem colon_rule_precedence (line : list N) (m : mstate) :
  re_search colon_pattern (strip line) = Some m ->
  fallback_guard (strip line) = true ->
  classify_line line = Claimed 1 (rule_field 3 m) /\
  classify line = rule_field 3 m /\
  (contains 10 line = false ->
   identify_field_names line = option_list (rule_field 3 m)) /\
  forall field_name, rule_field 3 m = Some field_name ->
    contains 10 line = false -> identify_field_names line = [field_name].
Proof.
  intros H _. pose proof (classify_line_colon _ _ H) as Hc.
  assert (Hf : classify line = rule_field 3 m) by (unfold classify; now rewrite Hc).
  repeat split; auto.
  - intros Hn. now rewrite identify_one_line, Hf.
  - intros f Hm Hn. now rewrite identify_one_line, Hf, Hm.
Qed.

(** The line Policy Number: passes both rules and is returned once. *)
Lemma colon_rule_precedence_witness :
  classify_line (lit "Policy Number:") = Claimed 1 (Some (lit "Policy Number")) /\
  fallback_alone (lit "Policy Number:") = Some (lit "Policy Number") /\
  identify_field_names (lit "Policy Number:") = [lit "Policy Number"].
Proof.
  pose proof (colon_rule_precedence (lit "Policy Number:")
    (MState 14 [] [(1, lit "Policy Number")]) eq_refl eq_refl) as (H1 & _ & _ & H2).
  split; [exact H1|]. split; [reflexivity|].
  apply H2; reflexivity.
Defined.

(** Every field name the loop appends passed a test [len(field_name) < 100]. *)
Lemma fallback_field_length line f :
  fallback_field line = Some f -> length f < 100.
Proof.
  unfold fallback_field. destruct (2 <=? _); [|discriminate].
  destruct (_ <=? 8); [|discriminate]. simpl.
  destruct (Nat.ltb_spec (length (strip (hd [] (split (chr ":") line)))) 100);
    [|discriminate].
  now intros [= <-].
Qed.

Lemma classify_length line f : classify line = Some f -> length f < 100.
Proof.
  unfold classify, classify_line. cbv zeta.
  destruct (strip line) as [|c l]; [discriminate|].
  destruct (re_search colon_pattern _); [intros [-> H]%accept_length; lia|].
  destruct (re_search underscore_pattern _); [intros [-> H]%accept_length; lia|].
  destruct (re_search numbered_pattern _); [intros [-> H]%accept_length; lia|].
  destruct (re_search checkbox_pattern _); [intros [-> H]%accept_length; lia|].
  destruct (fallback_guard _); [|discriminate].
  apply fallback_field_length.
Qed.

(** C6: rules 1, 2 and 3 yield nothing on the line A: and every rule rejects
    a label of 100 characters or more, so no field name that the classifier
    returns, for a line or for a text, is longer than 100 characters. *)
Theorem length_bound_rejection :
  (rule_alone colon_pattern 3 (lit "A:") = None /\
   rule_alone underscore_pattern 3 (lit "A:") = None /\
   rule_alone numbered_pattern 3 (lit "A:") = None) /\
  (forall lo field_name, 100 <= length field_name -> accept lo field_name = None) /\
  (forall line, 100 <= length (strip (hd [] (split (chr ":") line))) ->
     fallback_field line = None) /\
  (forall line field_name, classify line = Some field_name ->
     length field_name < 100) /\
  (forall text field_name, In field_name (identify_field_names text) ->
     length field_name < 100).
Proof.
  split; [now vm_compute|]. split; [|split; [|split]].
  - intros lo f H. apply accept_None. lia.
  - intros line H. destruct (fallback_field line) as [f|] eqn:E; [|reflexivity].
    unfold fallback_field in E. destruct (2 <=? _); [|discriminate].
    destruct (_ <=? 8); [|discriminate]. simpl in E.
    destruct (Nat.ltb_spec (length (strip (hd [] (split (chr ":") line)))) 100);
      [lia | discriminate].
  - apply classify_length.
  - intros text f. rewrite identify_field_names_omap.
    intros H%list_elem_of_In. apply list_elem_of_omap in H as (line & _ & H).
    eapply classify_length, H.
Qed.

(** A returned name is short; a label of 100 characters is rejected. *)
Lemma length_bound_rejection_witness :
  length (lit "Named Insured") < 100 /\
  accept 3 (replicate 100 (chr "a")) = None.
Proof.
  destruct length_bound_rejection as (_ & Ha & _ & Hc & _). split.
  - apply (Hc (lit "Named Insured:")). reflexivity.
  - apply Ha. simpl. lia.
Defined.

(** C7 as stated fails on a bullet [O]: rule 4's pattern matches the line
    O AB: and the label AB is too short for rule 4, yet rule 1 claims the
    line first and returns O AB. *)
Lemma failed_checkbox_counterexample :
  re_search checkbox_pattern (strip (lit "O AB:")) =
    Some (MState 4 (lit ":") [(1, lit "AB")]) /\
  rule_field 2 (MState 4 (lit ":") [(1, lit "AB")]) = None /\
  classify (lit "O AB:") = Some (lit "O AB").
Proof. now vm_compute. Qed.

(** C7, amended: a line that the pattern of rule 1, 2 or 3 matches, or that
    the pattern of rule 4 matches and those of rules 1 and 2 do not, and
    whose label fails the bounds of that rule, is claimed by the rule and
    yields no field name. *)
Theorem failed_rule_consumes_line (line : list N) (m : mstate) :
  (re_search colon_pattern (strip line) = Some m -> rule_field 3 m = None ->
     classify_line line = Claimed 1 None /\ classify line = None) /\
  (re_search underscore_pattern (strip line) = Some m -> rule_field 3 m = None ->
     classify_line line = Claimed 2 None /\ classify line = None) /\
  (re_search numbered_pattern (strip line) = Some m -> rule_field 3 m = None ->
     classify_line line = Claimed 3 None /\ classify line = None) /\
  (re_search checkbox_pattern (strip line) = Some m -> rule_field 2 m = None ->
     re_search colon_pattern (strip line) = None ->
     re_search underscore_pattern (strip line) = None ->
     classify_line line = Claimed 4 None /\ classify line = None).
Proof.
  assert (Hc : forall i, classify_line line = Claimed i None ->
             classify_line line = Claimed i None /\ classify line = None).
  { intros i H. split; [exact H|]. unfold classify. now rewrite H. }
  split; [|split; [|split]].
  - intros H Hf. apply Hc. rewrite <- Hf. now apply classify_line_colon.
  - intros H Hf. apply Hc. rewrite <- Hf. apply classify_line_underscore; auto.
    destruct (re_search colon_pattern (strip line)) eqn:E; auto.
    destruct (colon_underscore_exclusive _ _ _ E H).
  - intros H Hf. apply Hc. rewrite <- Hf. apply classify_line_numbered;
      eauto using numbered_not_colon, numbered_not_underscore.
  - intros H Hf H1 H2. apply Hc. rewrite <- Hf.
    apply classify_line_checkbox; eauto using checkbox_not_numbered.
Qed.

(** The lines AB:, Ab __, 1. Ab and [☐ No], one for each rule, yield
    nothing; rule 5 alone would return AB. *)
Lemma failed_rule_consumes_line_witness :
  classify (lit "AB:") = None /\ fallback_alone (lit "AB:") = Some (lit "AB") /\
  classify (lit "Ab __") = None /\
  classify (lit "1. Ab") = None /\
  classify ([0x2610%N] ++ lit " No") = None.
Proof.
  destruct (failed_rule_consumes_line (lit "AB:") (MState 3 [] [(1, lit "AB")]))
    as (H1 & _).
  destruct (failed_rule_consumes_line (lit "Ab __") (MState 5 [] [(1, lit "Ab")]))
    as (_ & H2 & _).
  destruct (failed_rule_consumes_line (lit "1. Ab") (MState 5 [] [(1, lit "Ab")]))
    as (_ & _ & H3 & _).
  destruct (failed_rule_consumes_line ([0x2610%N] ++ lit " No")
    (MState 4 [] [(1, lit "No")])) as (_ & _ & _ & H4).
  split; [|split; [|split; [|split]]].
  - apply H1; reflexivity.
  - reflexivity.
  - apply H2; reflexivity.
  - apply H3; reflexivity.
  - apply H4; reflexivity.
Defined.

(** C8: rule 5 has no lower bound on the length of the label. Rule 1's
    pattern does not match the line A: (what it captures before the colon
    has two characters or more), rule 5 claims the line and returns A; on a
    line with a colon rule 5 tests the number of words and the upper bound
    only. *)
Theorem fallback_no_lower_bound :
  re_search colon_pattern (lit "A:") = None /\
  (forall line m, re_search colon_pattern line = Some m ->
     2 <= length (group 1 m)) /\
  classify_line (lit "A:") = Claimed 5 (Some (lit "A")) /\
  identify_field_names (lit "A:") = [lit "A"] /\
  forall line, contains (chr ":") line = true ->
    fallback_field line =
      let field_name := strip (hd [] (split (chr ":") line)) in
      if (length (split_whitespace field_name) <=? 8) && (length field_name <? 100)
      then Some field_name else None.
Proof.
  split; [now vm_compute|]. split.
  { intros line m (c & g & sp & tl & _ & _ & _ & Hlen & _ & _ & ->)%colon_inv.
    simpl. lia. }
  split; [now vm_compute|]. split; [now vm_compute|].
  intros line H%split_sep. unfold fallback_field.
  apply Nat.leb_le in H. now rewrite H.
Qed.

(** Rule 5 on the line A:. *)
Lemma fallback_no_lower_bound_witness :
  fallback_field (lit "A:") = Some (lit "A").
Proof.
  destruct fallback_no_lower_bound as (_ & _ & _ & _ & H).
  rewrite (H (lit "A:") eq_refl). reflexivity.
Defined.

(** ** Rule 2 on a label followed by a blank *)

(** A run of a class ends before the first character outside the class. *)
Lemma forallb_take_bound (p : N -> bool) a x b : forall j,
  p x = false -> forallb p (take j (a ++ x :: b)) = true -> j <= length a.
Proof.
  induction a as [|y a IH]; intros j Hx H.
  - destruct j; [simpl; lia|]. simpl in H. now rewrite Hx in H.
  - destruct j; [simpl; lia|]. simpl in H. apply andb_prop in H as [_ H].
    apply IH in H; [simpl; lia | exact Hx].
Qed.

Lemma forallb_take (p : N -> bool) a j :
  forallb p a = true -> forallb p (take j a) = true.
Proof.
  rewrite !forallb_forall. intros H x Hx. apply H.
  apply list_elem_of_In. apply list_elem_of_In in Hx.
  eapply subseteq_take, Hx.
Qed.

(** The underscores of a blank: all of them are taken. *)
Lemma underscores_match {R} n i (k : nat -> list N -> option R) m :
  2 <= n -> k (i + n) [] = Some m ->
  rep_greedy (one "_") 2 i (replicate n (chr "_")) k = Some m.
Proof.
  intros Hn E.
  assert (Hall : forallb (one "_") (replicate n (chr "_")) = true).
  { apply forallb_forall. intros x Hx%list_elem_of_In%elem_of_replicate.
    destruct Hx as [-> _]. reflexivity. }
  apply rep_greedy_Some with (j := n).
  - rewrite length_replicate. lia.
  - now apply forallb_take.
  - rewrite drop_ge by (rewrite length_replicate; lia). exact E.
  - rewrite length_replicate. intros; lia.
Qed.

Lemma underscore_match c t ws0 w n :
  upper_AZ c = true -> forallb label_char t = true ->
  forallb isspace ws0 = true -> isspace w = true ->
  1 <= length (t ++ ws0) -> 2 <= n ->
  exists m,
    re_search underscore_pattern
      (c :: (t ++ ws0) ++ w :: replicate n (chr "_")) = Some m /\
    group 1 m = c :: t ++ ws0.
Proof.
  intros Hc Ht Hws Hw Hlen Hn.
  assert (Hrun : forallb label_char (t ++ ws0) = true).
  { rewrite forallb_app, Ht. simpl. apply forallb_forall. intros x Hx.
    apply isspace_label_char. rewrite forallb_forall in Hws. auto. }
  eexists. unfold underscore_pattern. rewrite re_search_Bol. cbn [re_match].
  split.
  - eapply label_Some with (j := length (t ++ ws0)).
    + reflexivity.
    + exact Hc.
    + rewrite !length_app in *. simpl. lia.
    + now rewrite take_app_length.
    + rewrite drop_app_length, take_app_length. cbn [re_match pos rest caps].
      apply rep_greedy_Some with (j := 1).
      * simpl. lia.
      * simpl. now rewrite Hw.
      * simpl drop. apply underscores_match; [lia | reflexivity].
      * intros j' Hj' Hp'. destruct j' as [|[|j']]; try lia.
        destruct n as [|n]; [lia|]. simpl in Hp'.
        rewrite Hw in Hp'. discriminate Hp'.
    + intros j' Hj' Hp'.
      destruct n as [|n]; [lia|].
      assert (j' <= length ((t ++ ws0) ++ [w])).
      { eapply (forallb_take_bound label_char _ (chr "_") (replicate n (chr "_"))); [reflexivity|].
        rewrite <- app_assoc. exact Hp'. }
      assert (j' = length ((t ++ ws0) ++ [w])) as ->
        by (rewrite !length_app in *; simpl in *; lia).
      replace ((t ++ ws0) ++ w :: replicate (S n) (chr "_"))
        with (((t ++ ws0) ++ [w]) ++ replicate (S n) (chr "_"))
        by now rewrite <- app_assoc.
      rewrite drop_app_length.
      cbn [re_match pos rest caps]. apply rep_greedy_None.
      intros j Hj Hp. destruct j; [lia|]. discriminate Hp.
  - reflexivity.
Qed.

(** Rule 1 needs a colon, rule 2 an underscore. *)
Lemma colon_needs_colon l :
  contains (chr ":") l = false -> re_search colon_pattern l = None.
Proof.
  intros H. destruct (re_search colon_pattern l) as [m|] eqn:E; [|reflexivity].
  exfalso. apply colon_inv in E as (c & g & sp & tl & -> & _).
  apply not_true_iff_false in H. apply H. apply existsb_exists.
  exists (chr ":"). split; [|apply N.eqb_refl].
  right. apply in_or_app. right. now left.
Qed.

Lemma underscore_needs_underscore l :
  contains (chr "_") l = false -> re_search underscore_pattern l = None.
Proof.
  intros H. destruct (re_search underscore_pattern l) as [m|] eqn:E; [|reflexivity].
  exfalso. apply underscore_inv in E as (c & g & sp & tl & -> & _).
  apply not_true_iff_false in H. apply H. apply existsb_exists.
  exists (chr "_"). split; [|apply N.eqb_refl].
  right. apply in_or_app. right. apply in_or_app. right. now left.
Qed.

Lemma contains_app c a b : contains c (a ++ b) = contains c a || contains c b.
Proof. apply existsb_app. Qed.

Lemma contains_class (p : N -> bool) c l :
  p c = false -> forallb p l = true -> contains c l = false.
Proof.
  intros Hc Hl. destruct (contains c l) eqn:E; [|reflexivity].
  apply existsb_exists in E as (x & Hx & ->%N.eqb_eq).
  rewrite forallb_forall in Hl. apply Hl in Hx. congruence.
Qed.

Lemma forallb_replicate (p : N -> bool) n x :
  p x = true -> forallb p (replicate n x) = true.
Proof. intros H. induction n; simpl; [reflexivity | now rewrite H]. Qed.

(** C4 as stated fails without a blank before the underscores: on the line
    Address________ no pattern matches and nothing is returned. *)
Lemma underscore_without_blank_counterexample :
  classify_line (lit "Address________") = Unmatched /\
  classify (lit "Address________") = None /\
  classify (lit "Address ________") = Some (lit "Address").
Proof. now vm_compute. Qed.

(** C4, amended: on a line made of a label (an uppercase letter and label
    characters), at least one whitespace character and two or more
    underscores, where the stripped label has more than 3 and fewer than 100
    characters, rule 2 claims the line and the classifier returns the
    stripped label. *)
Theorem underscore_rule_with_blank (c : N) (t ws : list N) (n : nat) :
  upper_AZ c = true -> forallb label_char t = true ->
  1 <= length ws -> forallb isspace ws = true ->
  2 <= n ->
  3 < length (strip (c :: t)) < 100 ->
  classify_line (c :: t ++ ws ++ replicate n (chr "_")) =
    Claimed 2 (Some (strip (c :: t))) /\
  classify (c :: t ++ ws ++ replicate n (chr "_")) = Some (strip (c :: t)).
Proof.
  intros Hc Ht Hlen Hws Hn Hb.
  enough (H : classify_line (c :: t ++ ws ++ replicate n (chr "_")) =
              Claimed 2 (Some (strip (c :: t)))).
  { split; [exact H|]. unfold classify. now rewrite H. }
  destruct (exists_last (l := ws)) as (ws0 & w & ->); [now destruct ws|].
  rewrite forallb_app in Hws. apply andb_prop in Hws as [Hws0 Hw].
  simpl in Hw. rewrite andb_true_r in Hw.
  assert (Hstrip : strip (c :: t ++ (ws0 ++ [w]) ++ replicate n (chr "_")) =
                   c :: (t ++ ws0) ++ w :: replicate n (chr "_")).
  { destruct n as [|n]; [lia|]. rewrite replicate_S_end.
    rewrite <- !app_assoc. rewrite !app_assoc.
    rewrite strip_id; [|now apply upper_AZ_not_space|reflexivity].
    now rewrite <- !app_assoc. }
  assert (Hlbl : 1 <= length (t ++ ws0)).
  { pose proof (strip_length (c :: t)). rewrite length_app. simpl in *. lia. }
  destruct (underscore_match c t ws0 w n Hc Ht Hws0 Hw Hlbl Hn) as (m & Hm & Hg).
  rewrite (classify_line_underscore _ m).
  - unfold rule_field. rewrite Hg, app_comm_cons, strip_spaces by exact Hws0.
    unfold accept.
    destruct (Nat.ltb_spec 3 (length (strip (c :: t)))); [|lia].
    destruct (Nat.ltb_spec (length (strip (c :: t))) 100); [|lia].
    reflexivity.
  - rewrite Hstrip. apply colon_needs_colon.
    change (c :: (t ++ ws0) ++ w :: replicate n (chr "_"))
      with ([c] ++ (t ++ ws0) ++ [w] ++ replicate n (chr "_")).
    rewrite !contains_app.
    rewrite (contains_class upper_AZ _ [c]); [|reflexivity|simpl; now rewrite Hc].
    rewrite (contains_class label_char _ t); [|reflexivity|exact Ht].
    rewrite (contains_class isspace _ ws0); [|reflexivity|exact Hws0].
    rewrite (contains_class isspace _ [w]); [|reflexivity|simpl; now rewrite Hw].
    rewrite (contains_class (one "_") _ (replicate n _)); [reflexivity|reflexivity|].
    now apply forallb_replicate.
  - now rewrite Hstrip.
Qed.

(** The line Address, a space, eight underscores. *)
Lemma underscore_rule_with_blank_witness :
  classify (lit "Address ________") = Some (lit "Address").
Proof.
  apply (underscore_rule_with_blank (chr "A") (lit "ddress") (lit " ") 8);
    [reflexivity | reflexivity | simpl; lia | reflexivity | lia |
     vm_compute; lia].
Defined.

(** ** Rule 4 on a bullet, a blank and a label *)

Lemma checkbox_glyph_not_space c : checkbox_glyph c = true -> isspace c = false.
Proof.
  intros H%checkbox_glyph_cases.
  destruct H as [->|[->|[->|[->| ->]]]]; now vm_compute.
Qed.

Lemma checkbox_match g ws c t :
  checkbox_glyph g = true ->
  forallb isspace ws = true -> 1 <= length ws ->
  upper_AZ c = true -> forallb label_char t = true -> 1 <= length t ->
  exists m,
    re_search checkbox_pattern (g :: ws ++ c :: t) = Some m /\
    group 1 m = c :: t.
Proof.
  intros Hg Hws Hlen Hc Ht Hlt.
  eexists. unfold checkbox_pattern. rewrite re_search_Bol.
  cbn [re_match pos rest caps]. rewrite Hg. split.
  - apply rep_greedy_Some with (j := length ws).
    + rewrite length_app. lia.
    + now rewrite take_app_length.
    + rewrite drop_app_length.
      eapply label_Some with (j := length t); cbn [pos rest caps].
      * reflexivity.
      * exact Hc.
      * lia.
      * now rewrite firstn_all.
      * rewrite firstn_all. reflexivity.
      * intros; lia.
    + intros j' Hj' Hp'.
      apply (forallb_take_bound isspace ws c t) in Hp'; [lia|].
      now apply upper_AZ_not_space.
  - reflexivity.
Qed.

(** What the code does on a checkbox line: a bullet, whitespace and a label
    of two or more characters that ends in a non-blank.  Rule 4 claims the
    line, and the label is returned when it has more than two characters and
    fewer than 100. *)
Lemma checkbox_rule g ws c t d :
  checkbox_glyph g = true ->
  forallb isspace ws = true -> 1 <= length ws ->
  upper_AZ c = true -> forallb label_char (t ++ [d]) = true ->
  isspace d = false ->
  classify_line (g :: ws ++ c :: t ++ [d]) = Claimed 4 (accept 2 (c :: t ++ [d])).
Proof.
  intros Hg Hws Hlen Hc Ht Hd.
  assert (Hstrip : strip (g :: ws ++ c :: t ++ [d]) = g :: ws ++ c :: t ++ [d]).
  { replace (g :: ws ++ c :: t ++ [d]) with (g :: (ws ++ c :: t) ++ [d])
      by now rewrite <- app_assoc.
    apply strip_id; [now apply checkbox_glyph_not_space | exact Hd]. }
  assert (Hsplit : g :: ws ++ c :: t ++ [d] = [g] ++ ws ++ [c] ++ (t ++ [d]))
    by reflexivity.
  destruct (checkbox_match g ws c (t ++ [d]) Hg Hws Hlen Hc Ht) as (m & Hm & Hgrp).
  { rewrite length_app. simpl. lia. }
  rewrite (classify_line_checkbox _ m).
  - unfold rule_field. rewrite Hgrp.
    rewrite strip_id; [reflexivity | now apply upper_AZ_not_space | exact Hd].
  - rewrite Hstrip. apply colon_needs_colon. rewrite Hsplit. do 3 rewrite contains_app.
    rewrite (contains_class checkbox_glyph _ [g]); [|reflexivity|simpl; now rewrite Hg].
    rewrite (contains_class isspace _ ws); [|reflexivity|exact Hws].
    rewrite (contains_class upper_AZ _ [c]); [|reflexivity|simpl; now rewrite Hc].
    now rewrite (contains_class label_char _ (t ++ [d])).
  - rewrite Hstrip. apply underscore_needs_underscore. rewrite Hsplit.
    do 3 rewrite contains_app.
    rewrite (contains_class checkbox_glyph _ [g]); [|reflexivity|simpl; now rewrite Hg].
    rewrite (contains_class isspace _ ws); [|reflexivity|exact Hws].
    rewrite (contains_class upper_AZ _ [c]); [|reflexivity|simpl; now rewrite Hc].
    now rewrite (contains_class label_char _ (t ++ [d])).
  - rewrite Hstrip.
    destruct (re_search numbered_pattern _) as [m'|] eqn:E; [|reflexivity].
    apply numbered_head in E as (c' & t' & [= <- _] & Hdec).
    apply checkbox_glyph_not_decimal in Hg. congruence.
  - now rewrite Hstrip.
Qed.

(** C3: the code rejects the two-character checkbox labels: the lines
    [☐ No] and [□ No] are claimed by rule 4 and yield nothing, since the test
    is [len(field_name) > 2]; [☐ Yes] yields Yes. *)
Theorem checkbox_two_character_label :
  classify_line ([0x2610%N] ++ lit " No") = Claimed 4 None /\
  identify_field_names ([0x2610%N] ++ lit " No") = [] /\
  identify_field_names ([0x25A1%N] ++ lit " No") = [] /\
  identify_field_names ([0x2610%N] ++ lit " Yes") = [lit "Yes"].
Proof. now vm_compute. Qed.

(** ** The order of [sorted] *)

Lemma str_leb_refl s : str_leb s s = true.
Proof. induction s as [|a s IH]; simpl; [reflexivity|]. now rewrite N.ltb_irrefl. Qed.

Lemma str_leb_total s : forall t, str_leb s t = true \/ str_leb t s = true.
Proof.
  induction s as [|a s IH]; intros [|b t]; simpl; auto.
  destruct (N.ltb_spec a b), (N.ltb_spec b a); auto; lia.
Qed.

Lemma str_leb_antisym s : forall t,
  str_leb s t = true -> str_leb t s = true -> s = t.
Proof.
  induction s as [|a s IH]; intros [|b t]; simpl; try discriminate; auto.
  destruct (N.ltb_spec a b), (N.ltb_spec b a); try discriminate; try lia.
  intros H1 H2. assert (a = b) as -> by lia. f_equal. auto.
Qed.

Lemma str_leb_trans s : forall t u,
  str_leb s t = true -> str_leb t u = true -> str_leb s u = true.
Proof.
  induction s as [|a s IH]; intros [|b t] [|c u]; simpl; try discriminate; auto.
  destruct (N.ltb_spec a b), (N.ltb_spec b a), (N.ltb_spec b c), (N.ltb_spec c b),
    (N.ltb_spec a c), (N.ltb_spec c a); try discriminate; try lia; auto.
  apply IH.
Qed.

#[global] Instance str_le_total : Total str_le.
Proof. intros s t. apply str_leb_total. Qed.

#[global] Instance str_le_trans : Transitive str_le.
Proof. intros s t u. apply str_leb_trans. Qed.

#[global] Instance str_le_antisym : AntiSymm eq str_le.
Proof. intros s t. apply str_leb_antisym. Qed.

(** [sorted] returns the one sorted arrangement of its argument. *)
Lemma sorted_Sorted l : Sorted str_le (sorted l).
Proof. apply Sorted_merge_sort, _. Qed.

Lemma sorted_Permutation l : sorted l ≡ₚ l.
Proof. apply merge_sort_Permutation. Qed.

Lemma sorted_perm_invariant l1 l2 : l1 ≡ₚ l2 -> sorted l1 = sorted l2.
Proof.
  intros H. apply (Sorted_unique str_le); try apply sorted_Sorted.
  now rewrite !sorted_Permutation.
Qed.

(** ** The aggregator *)

Lemma elem_of_update field_names fields (x : list N) :
  x ∈ update field_names fields <-> x ∈ field_names \/ x ∈ fields.
Proof. unfold update. set_solver. Qed.

Lemma foldl_update (batches : list (list (list N))) : forall field_names,
  foldl update field_names batches = field_names ∪ list_to_set (concat batches).
Proof.
  induction batches as [|b bs IH]; intros S; simpl.
  - now rewrite (right_id_L ∅ (∪)).
  - rewrite IH. unfold update. now rewrite list_to_set_app_L, (assoc_L (∪)).
Qed.

Lemma aggregate_batches texts :
  aggregate texts = foldl update ∅ (map identify_field_names texts).
Proof.
  unfold aggregate. generalize (∅ : gset (list N)).
  induction texts as [|t ts IH]; intros S; simpl; [reflexivity | apply IH].
Qed.

Lemma elem_of_aggregate texts (x : list N) :
  x ∈ aggregate texts <-> exists text, text ∈ texts /\ x ∈ identify_field_names text.
Proof.
  rewrite aggregate_batches, foldl_update.
  rewrite elem_of_union, elem_of_list_to_set, list_elem_of_In, in_concat.
  split.
  - intros [H|(l & (text & <- & Ht)%in_map_iff & Hx)].
    + now apply elem_of_empty in H.
    + exists text. now rewrite !list_elem_of_In.
  - intros (text & Ht & Hx). right. exists (identify_field_names text).
    rewrite !list_elem_of_In in *. split; [|exact Hx]. now apply in_map.
Qed.

Lemma elem_of_sorted_fields X (x : list N) : x ∈ sorted_fields X <-> x ∈ X.
Proof. unfold sorted_fields. now rewrite sorted_Permutation, elem_of_elements. Qed.

Lemma NoDup_sorted_fields X : NoDup (sorted_fields X).
Proof. unfold sorted_fields. rewrite sorted_Permutation. apply NoDup_elements. Qed.

(** Every field name the loop appends is the result of a [strip()]. *)
Lemma classify_stripped line f : classify line = Some f -> strip f = f.
Proof.
  assert (Ha : forall lo g, accept lo (strip g) = Some f -> strip f = f).
  { intros lo g [-> _]%accept_length. apply strip_idem. }
  unfold classify, classify_line. cbv zeta.
  destruct (strip line) as [|c l]; [discriminate|].
  destruct (re_search colon_pattern _); [apply Ha|].
  destruct (re_search underscore_pattern _); [apply Ha|].
  destruct (re_search numbered_pattern _); [apply Ha|].
  destruct (re_search checkbox_pattern _); [apply Ha|].
  destruct (fallback_guard _); [|discriminate].
  unfold appended_by, fallback_field. destruct (2 <=? _); [|discriminate].
  destruct (_ && _); [|discriminate]. intros [= <-]. apply strip_idem.
Qed.

Lemma aggregate_stripped texts (x : list N) : x ∈ aggregate texts -> strip x = x.
Proof.
  intros (text & _ & Hx)%elem_of_aggregate.
  rewrite identify_field_names_omap in Hx.
  apply list_elem_of_omap in Hx as (line & _ & Hx). eapply classify_stripped, Hx.
Qed.

(** C5: for the set of Zip Code, Named Insured and Agent Name the sorted view
    is Agent Name, Named Insured, Zip Code; for every set it is the sorted
    arrangement of the set's elements, the only one there is, whatever order
    the set is iterated in and whatever order the candidates were added
    in. *)
Theorem deterministic_ordering :
  sorted_fields {[ lit "Zip Code"; lit "Named Insured"; lit "Agent Name" ]} =
    [lit "Agent Name"; lit "Named Insured"; lit "Zip Code"] /\
  (forall X : gset (list N),
     Sorted str_le (sorted_fields X) /\ sorted_fields X ≡ₚ elements X) /\
  (forall (X : gset (list N)) (l : list (list N)),
     l ≡ₚ elements X -> sorted l = sorted_fields X) /\
  (forall (X : gset (list N)) (l : list (list N)),
     Sorted str_le l -> l ≡ₚ elements X -> l = sorted_fields X) /\
  (forall batches1 batches2 : list (list (list N)),
     batches1 ≡ₚ batches2 ->
     sorted_fields (foldl update ∅ batches1) =
     sorted_fields (foldl update ∅ batches2)) /\
  (forall texts1 texts2 : list (list N),
     texts1 ≡ₚ texts2 ->
     sorted_fields (aggregate texts1) = sorted_fields (aggregate texts2)).
Proof.
  split; [now vm_compute|]. split; [|split; [|split; [|split]]].
  - intros X. split; [apply sorted_Sorted | apply sorted_Permutation].
  - intros X l H. now apply sorted_perm_invariant.
  - intros X l Hs Hp. apply (Sorted_unique str_le); [exact Hs | apply sorted_Sorted |].
    unfold sorted_fields. now rewrite sorted_Permutation.
  - intros b1 b2 H. f_equal. rewrite !foldl_update. f_equal.
    apply list_to_set_perm_L. now rewrite H.
  - intros t1 t2 H. f_equal. rewrite !aggregate_batches, !foldl_update. f_equal.
    apply list_to_set_perm_L. now rewrite H.
Qed.

(** Another enumeration of the three names, and two pages in either order. *)
Lemma deterministic_ordering_witness :
  sorted [lit "Zip Code"; lit "Agent Name"; lit "Named Insured"] =
    sorted_fields {[ lit "Zip Code"; lit "Named Insured"; lit "Agent Name" ]} /\
  sorted_fields (aggregate [lit "Zip Code:"; lit "Agent Name:"]) =
    sorted_fields (aggregate [lit "Agent Name:"; lit "Zip Code:"]).
Proof.
  destruct deterministic_ordering as (_ & _ & H1 & _ & _ & H2). split.
  - apply H1. apply NoDup_Permutation.
    + apply (bool_decide_unpack _). now vm_compute.
    + apply NoDup_elements.
    + intros x. rewrite elem_of_elements, !elem_of_cons, elem_of_nil,
        !elem_of_union, !elem_of_singleton. tauto.
  - apply H2. apply Permutation_swap.
Defined.

(** ** The run *)

Section Run.
Context {Image : Type} (e : @env Image).

(** The loop over the pages either meets a page whose OCR raises, and
    raises, or processes every page and returns the union of the names. *)
Lemma process_pages_spec images : forall field_names w,
  (exists texts,
     Forall2 (fun image text => extract_text_from_image e image = Some text)
       images texts /\
     process_pages e images field_names w =
       (inr (foldl (fun field_names text =>
                      update field_names (identify_field_names text))
               field_names texts), w)) \/
  ((exists image, image ∈ images /\ extract_text_from_image e image = None) /\
   process_pages e images field_names w = (inl Exception, w)).
Proof.
  induction images as [|image images IH]; intros S w; simpl.
  - left. exists []. split; [constructor | reflexivity].
  - destruct (extract_text_from_image e image) as [text|] eqn:E.
    + destruct (IH (update S (identify_field_names text)) w)
        as [(texts & Hf & Hp)|((i & Hi & Hn) & Hp)].
      * left. exists (text :: texts). split; [now constructor | exact Hp].
      * right. split; [|exact Hp]. exists i. split; [now apply elem_of_cons; right | exact Hn].
    + right. split; [|reflexivity]. exists image. split; [apply elem_of_cons; now left | exact E].
Qed.

Lemma process_pages_ok images texts :
  Forall2 (fun image text => extract_text_from_image e image = Some text)
    images texts ->
  forall field_names w,
    process_pages e images field_names w =
      (inr (foldl (fun field_names text =>
                     update field_names (identify_field_names text))
              field_names texts), w).
Proof.
  induction 1 as [|image text images texts H _ IH]; intros S w; simpl.
  - reflexivity.
  - rewrite H. apply IH.
Qed.

(** [extract_fields] on a new extractor, when nothing raises. *)
Lemma extract_fields_aggregate images texts w :
  convert_from_path e = Some images ->
  Forall2 (fun image text => extract_text_from_image e image = Some text)
    images texts ->
  extract_fields e ∅ w = (inr (aggregate texts), w).
Proof.
  intros Hc Hf. unfold extract_fields. rewrite Hc.
  now rewrite (process_pages_ok images texts Hf).
Qed.

Context (h : host).

Lemma written_all chunks : forallb encodable chunks = true -> written chunks = chunks.
Proof.
  induction chunks as [|s chunks IH]; simpl; [reflexivity|].
  intros [-> H]%andb_prop. now rewrite IH.
Qed.

Lemma written_app a b :
  written (a ++ b) = if forallb encodable a then a ++ written b else written a.
Proof.
  induction a as [|s a IH]; simpl; [reflexivity|].
  destruct (encodable s); simpl; [|reflexivity].
  rewrite IH. now destruct (forallb encodable a).
Qed.

(** Writes to the opened file add to its end, up to the first chunk that
    cannot be encoded, on which the loop raises. *)
Lemma for_each_write {A} (f : A -> list N) l : forall content,
  for_each l (fun x => write (f x)) (Some content) =
    (if forallb encodable (map f l) then inr tt else inl Exception,
     Some (content ++ written (map f l))).
Proof.
  induction l as [|x l IH]; intros content; simpl.
  - unfold ret. now rewrite app_nil_r.
  - unfold bind, write at 1. simpl. destruct (encodable (f x)); simpl.
    + rewrite IH. now rewrite <- app_assoc.
    + now rewrite app_nil_r.
Qed.

(** [save_results]: the file does not open and stays as it was; or it holds
    the report, up to the first chunk that cannot be encoded. *)
Lemma save_results_spec path field_names w :
  save_results h e path field_names w =
    if opens h then
      (if forallb encodable (report e field_names) &&
          printable (stdout_encodes h) (saved_message path) &&
          printable (stdout_encodes h) (total_message (size field_names))
       then inr tt else inl Exception,
       Some (written (report e field_names)))
    else (inl Exception, w).
Proof.
  unfold save_results, report, bind, open_w. cbv zeta.
  destruct (opens h); [|reflexivity].
  rewrite (for_each_write (fun s => s)), map_id. cbn [app].
  rewrite forallb_app, written_app.
  destruct (forallb encodable (report_header e (sorted_fields field_names)))
    eqn:Eh; [|reflexivity].
  rewrite (written_all _ Eh), for_each_write. cbn [andb].
  destruct (forallb encodable (map report_line _)) eqn:E; [|reflexivity].
  rewrite (written_all _ E). unfold print. cbn [andb].
  destruct (printable _ (saved_message path)); [|reflexivity].
  replace (length (sorted_fields field_names)) with (size field_names)
    by (unfold sorted_fields, sorted; now rewrite merge_sort_Permutation).
  now destruct (printable _ (total_message _)).
Qed.

(** How a run ends: [parse_args] ends it; or it fails before the file is
    opened, which stays as it was; or every page was processed and the file
    holds the report, up to the first chunk that cannot be encoded. *)
Lemma run_spec before :
  (parse_args h = Usage_error /\ run h e before = (2%N, before)) \/
  (parse_args h = Help /\ run h e before = (0%N, before)) \/
  (parse_args h = Args /\
   (pdf_exists e = false \/ output_path h = None \/ convert_from_path e = None \/
    (exists images image, convert_from_path e = Some images /\ image ∈ images /\
       extract_text_from_image e image = None) \/
    opens h = false) /\
   run h e before = (1%N, before)) \/
  (exists path images texts,
     parse_args h = Args /\ pdf_exists e = true /\ output_path h = Some path /\
     convert_from_path e = Some images /\
     Forall2 (fun image text => extract_text_from_image e image = Some text)
       images texts /\
     opens h = true /\
     run h e before =
       (if forallb encodable (report e (aggregate texts)) &&
           messages_printable h path (size (aggregate texts))
        then 0%N else 1%N,
        Some (written (report e (aggregate texts))))).
Proof.
  unfold run, main. destruct (parse_args h) eqn:Hp; [|now left | right; now left].
  right. right.
  unfold try_except, bind, init, extract_fields.
  destruct (pdf_exists e) eqn:Hx; [|left; split; [reflexivity|]; split; [auto | reflexivity]].
  destruct (output_path h) as [path|] eqn:Ho;
    [|left; split; [reflexivity|]; split; [auto | reflexivity]].
  unfold ret.
  destruct (convert_from_path e) as [images|] eqn:Hc;
    [|left; split; [reflexivity|]; split; [auto | reflexivity]].
  destruct (process_pages_spec images ∅ before)
    as [(texts & Hf & ->)|((image & Hi & Hn) & ->)];
    [|left; split; [reflexivity|]; split; [|reflexivity]; right; right; right; left; eauto].
  rewrite save_results_spec.
  destruct (opens h) eqn:Hop;
    [|left; split; [reflexivity|]; split; [auto 10 | reflexivity]].
  right. exists path, images, texts. repeat (split; [assumption || reflexivity|]).
  unfold messages_printable, print.
  destruct (forallb encodable _); [|reflexivity].
  destruct (printable _ (saved_message path)); [|reflexivity].
  destruct (printable _ (total_message _)); [|reflexivity].
  now destruct (printable _ complete_message).
Qed.

End Run.

Lemma filter_eq_absent (l : list (list N)) x :
  x ∉ l -> filter (fun y => y = x) l = [].
Proof.
  induction l as [|y l IH]; intros H; [reflexivity|].
  apply not_elem_of_cons in H as [Hne H].
  rewrite filter_cons, decide_False by congruence. auto.
Qed.

(** In a list without repetition a member occurs once. *)
Lemma filter_eq_NoDup (l : list (list N)) x :
  NoDup l -> x ∈ l -> length (filter (fun y => y = x) l) = 1.
Proof.
  induction 1 as [|y l Hy Hnd IH]; intros Hin; [now apply elem_of_nil in Hin|].
  rewrite filter_cons. destruct (decide (y = x)) as [->|Hne].
  - simpl. now rewrite filter_eq_absent.
  - apply elem_of_cons in Hin as [->|Hin]; [congruence | auto].
Qed.

(** C9: adding is set union; the sorted view has no entry twice; a name
    found on two pages is in it, once; every entry is its own [strip()], so
    no two entries are equal after stripping; the set that [extract_fields]
    returns is this union over the pages; names that differ in case are
    different entries. *)
Theorem deduplication :
  (forall (field_names : gset (list N)) fields x,
     x ∈ update field_names fields <-> x ∈ field_names \/ x ∈ fields) /\
  (forall texts, NoDup (sorted_fields (aggregate texts))) /\
  (forall pages1 text1 pages2 text2 pages3 name,
     name ∈ identify_field_names text1 -> name ∈ identify_field_names text2 ->
     let texts := pages1 ++ text1 :: pages2 ++ text2 :: pages3 in
     name ∈ sorted_fields (aggregate texts) /\
     length (filter (fun x => x = name) (sorted_fields (aggregate texts))) = 1) /\
  (forall texts, NoDup (map strip (sorted_fields (aggregate texts)))) /\
  (forall (Image : Type) (e : @env Image) images texts w,
     convert_from_path e = Some images ->
     Forall2 (fun image text => extract_text_from_image e image = Some text)
       images texts ->
     extract_fields e ∅ w = (inr (aggregate texts), w)) /\
  sorted_fields (aggregate [lit "Policy Number:"; lit "Policy number:"]) =
    [lit "Policy Number"; lit "Policy number"].
Proof.
  split; [apply elem_of_update|]. split; [intros; apply NoDup_sorted_fields|].
  split; [|split; [|split; [|now vm_compute]]].
  - intros pages1 text1 pages2 text2 pages3 name Hn _ texts.
    assert (Hin : name ∈ sorted_fields (aggregate texts)).
    { apply elem_of_sorted_fields, elem_of_aggregate. exists text1.
      split; [|exact Hn]. apply elem_of_app. right. apply elem_of_cons. now left. }
    split; [exact Hin|].
    apply filter_eq_NoDup; [apply NoDup_sorted_fields | exact Hin].
  - intros texts.
    replace (map strip (sorted_fields (aggregate texts)))
      with (sorted_fields (aggregate texts)); [apply NoDup_sorted_fields|].
    symmetry. rewrite <- (map_id (sorted_fields (aggregate texts))) at 2.
    apply map_ext_in. intros x Hx%list_elem_of_In%elem_of_sorted_fields.
    now apply aggregate_stripped in Hx.
  - intros Image e images texts w. apply extract_fields_aggregate.
Qed.

(** Policy Number, found by rule 1 on one page and by rule 3 on another. *)
Lemma deduplication_witness :
  length (filter (fun x => x = lit "Policy Number")
    (sorted_fields (aggregate [lit "Policy Number:"; lit "1. Policy Number"]))) = 1.
Proof.
  destruct deduplication as (_ & _ & H & _).
  apply (H [] (lit "Policy Number:") [] (lit "1. Policy Number") []).
  - apply (bool_decide_unpack _). now vm_compute.
  - apply (bool_decide_unpack _). now vm_compute.
Defined.

(** C10 as stated fails when a chunk of the report cannot be encoded: with a
    lone surrogate in the name of the PDF the third [f.write] raises after
    [open] has emptied the file, and the run ends with status 1 and leaves
    the first two of the six chunks of the report in place of the older
    report. *)
Lemma partial_report_counterexample :
  run (Host Args (Some (lit "bad.txt")) true (fun _ => true))
      (Env true (lit "bad" ++ [0xDCFF%N] ++ lit ".pdf") (Some [1])
         (fun _ => Some (lit "Name here:")))
      (Some [lit "an older report"]) =
    (1%N, Some [lit "ACORD Form Field Names" ++ [10%N];
                replicate 50 (chr "=") ++ [10%N]]) /\
  length (report (Env true (lit "bad" ++ [0xDCFF%N] ++ lit ".pdf") (Some [1])
                    (fun _ => Some (lit "Name here:")))
            (aggregate [lit "Name here:"])) = 6.
Proof. now vm_compute. Qed.

(** C10, amended: when the rasterizer fails the run ends with status 1 and
    the output file is as it was before. The file is opened only after
    every page was processed: a run leaves the file as it was, or has
    processed every page and leaves the report up to its first chunk that
    UTF-8 cannot encode; that is the whole report when every chunk can be
    encoded, and otherwise the run ends with status 1. A run that ends with
    status 0 after the arguments were parsed leaves the whole report. *)
Theorem no_partial_report {Image : Type} (h : host) (e : @env Image)
    (before : file) :
  (parse_args h = Args -> convert_from_path e = None ->
   run h e before = (1%N, before)) /\
  (snd (run h e before) = before \/
   exists images texts,
     convert_from_path e = Some images /\
     Forall2 (fun image text => extract_text_from_image e image = Some text)
       images texts /\
     snd (run h e before) = Some (written (report e (aggregate texts))) /\
     (forallb encodable (report e (aggregate texts)) = true ->
      snd (run h e before) = Some (report e (aggregate texts))) /\
     (forallb encodable (report e (aggregate texts)) = false ->
      fst (run h e before) = 1%N)) /\
  (parse_args h = Args -> fst (run h e before) = 0%N ->
   exists images texts,
     convert_from_path e = Some images /\
     Forall2 (fun image text => extract_text_from_image e image = Some text)
       images texts /\
     snd (run h e before) = Some (report e (aggregate texts))).
Proof.
  destruct (run_spec e h before)
    as [[Hp Hr]|[[Hp Hr]|[(Hp & Hwhy & Hr)|
        (path & images & texts & Hp & Hx & Ho & Hc & Hf & Hop & Hr)]]];
    rewrite Hr; cbn [fst snd].
  - split; [congruence|]. split; [now left | congruence].
  - split; [congruence|]. split; [now left | congruence].
  - split; [reflexivity|]. split; [now left | discriminate].
  - split; [congruence|]. split.
    + right. exists images, texts. split; [exact Hc|]. split; [exact Hf|].
      split; [reflexivity|]. split.
      * intros H. now rewrite written_all.
      * now intros ->.
    + intros _ H0. exists images, texts. split; [exact Hc|]. split; [exact Hf|].
      destruct (forallb encodable (report e (aggregate texts))) eqn:E;
        [now rewrite written_all | discriminate H0].
Qed.

(** A rasterizer that raises leaves an older report as it was; a run that
    ends with status 0 leaves the whole report. *)
Lemma no_partial_report_witness :
  run (Host Args (Some (lit "form.txt")) true (fun _ => true))
      (Env true (lit "form.pdf") (@None (list nat)) (fun _ => None))
      (Some [lit "an older report"]) = (1%N, Some [lit "an older report"]) /\
  exists images texts,
    Some [1] = Some images /\
    Forall2 (fun (image : nat) text => Some (lit "Name here:") = Some text)
      images texts /\
    snd (run (Host Args (Some (lit "form.txt")) true (fun _ => true))
           (Env true (lit "form.pdf") (Some [1]) (fun _ => Some (lit "Name here:")))
           None) =
      Some (report (Env true (lit "form.pdf") (Some [1])
                      (fun _ => Some (lit "Name here:")))
              (aggregate texts)).
Proof.
  split.
  - apply no_partial_report; reflexivity.
  - apply (no_partial_report (Host Args (Some (lit "form.txt")) true (fun _ => true))
             (Env true (lit "form.pdf") (Some [1]) (fun _ => Some (lit "Name here:")))
             None); [reflexivity | now vm_compute].
Defined.

(** * Further properties *)

(** ** Lines and whitespace *)

Lemma classify_line_strip_eq a b : strip a = strip b -> classify_line a = classify_line b.
Proof. intros H. unfold classify_line. cbv zeta. now rewrite H. Qed.

Lemma strip_surrounded ws1 line ws2 :
  forallb isspace ws1 = true -> forallb isspace ws2 = true ->
  strip (ws1 ++ line ++ ws2) = strip line.
Proof.
  intros H1 H2. rewrite <- (strip_spaces line ws2 H2).
  unfold strip. now rewrite lstrip_spaces.
Qed.

(** X1: whitespace around a line does not change what the loop does with
    it. *)
Theorem classify_line_surrounding_whitespace (ws1 line ws2 : list N) :
  forallb isspace ws1 = true -> forallb isspace ws2 = true ->
  classify_line (ws1 ++ line ++ ws2) = classify_line line /\
  classify (ws1 ++ line ++ ws2) = classify line.
Proof.
  intros H1 H2.
  assert (H : classify_line (ws1 ++ line ++ ws2) = classify_line line)
    by now apply classify_line_strip_eq, strip_surrounded.
  split; [exact H|]. unfold classify. now rewrite H.
Qed.

Lemma classify_line_surrounding_whitespace_witness :
  classify ([9; 32]%N ++ lit "Policy Number:" ++ [32; 13]%N) =
  classify (lit "Policy Number:").
Proof.
  apply (classify_line_surrounding_whitespace [9; 32]%N (lit "Policy Number:")
           [32; 13]%N); reflexivity.
Defined.

Lemma split_app sep a b :
  split sep (a ++ sep :: b) = split sep a ++ split sep b.
Proof.
  induction a as [|c a IH]; simpl.
  - now rewrite N.eqb_refl.
  - destruct (c =? sep)%N; [now rewrite IH|].
    rewrite IH. destruct (split sep a) as [|p ps] eqn:E; [|reflexivity].
    destruct a; simpl in E; [discriminate|].
    destruct (_ =? _)%N; [discriminate|]. now destruct (split sep a).
Qed.

Lemma split_length sep s : length (split sep s) = S (length (filter (fun c => c = sep) s)).
Proof.
  induction s as [|c s IH]; simpl; [reflexivity|].
  rewrite filter_cons. destruct (N.eqb_spec c sep) as [->|Hne].
  - rewrite decide_True by reflexivity. simpl. now rewrite IH.
  - rewrite decide_False by exact Hne.
    destruct (split sep s); simpl in *; [discriminate | exact IH].
Qed.

Lemma omap_length {A B} (f : A -> option B) l : length (omap f l) <= length l.
Proof. induction l as [|x l IH]; csimpl; [lia|]. destruct (f x); csimpl; lia. Qed.

(** X2: the names of a text are those of its lines, in the order of the
    lines: the names of two texts joined by a newline are the names of the
    first followed by the names of the second; and a text has at most one
    name for each of its lines. *)
Theorem identify_field_names_lines :
  (forall text1 text2 : list N,
     identify_field_names (text1 ++ 10%N :: text2) =
     identify_field_names text1 ++ identify_field_names text2) /\
  (forall text : list N,
     length (identify_field_names text) <=
     S (length (filter (fun c => c = 10%N) text))).
Proof.
  split.
  - intros t1 t2. rewrite !identify_field_names_omap.
    change (chr "010") with 10%N. now rewrite split_app, omap_app.
  - intros text. rewrite identify_field_names_omap. change (chr "010") with 10%N.
    rewrite <- split_length. apply omap_length.
Qed.

(** ** The names that are returned *)

Lemma lstrip_In x s : In x (lstrip s) -> In x s.
Proof.
  induction s as [|c s IH]; simpl; [auto|].
  destruct (isspace c); [auto | now intros H].
Qed.

Lemma strip_In x s : In x (strip s) -> In x s.
Proof.
  unfold strip, rstrip. intros H%in_rev%lstrip_In%in_rev. now apply lstrip_In.
Qed.

Lemma contains_In c s : contains c s = true <-> In c s.
Proof.
  unfold contains. rewrite existsb_exists. split.
  - now intros (x & H & ->%N.eqb_eq).
  - intros H. exists c. split; [exact H | apply N.eqb_refl].
Qed.

Lemma contains_strip c s : contains c s = false -> contains c (strip s) = false.
Proof.
  intros H. destruct (contains c (strip s)) eqn:E; [|reflexivity].
  apply contains_In, strip_In, contains_In in E. congruence.
Qed.

(** A stripped string that starts with a non-blank keeps its first
    character. *)
Lemma strip_cons c t : isspace c = false -> strip (c :: t) = c :: rstrip t.
Proof. intros H. unfold strip. now rewrite lstrip_nonspace, rstrip_cons. Qed.

Lemma in_ranges_members tbl c :
  in_ranges tbl c = true -> In c (concat (map range_members tbl)).
Proof.
  unfold in_ranges. intros (r & Hr & [H1 H2]%andb_prop)%existsb_exists.
  apply N.leb_le in H1, H2. apply in_concat. exists (range_members r).
  split; [now apply in_map|]. unfold range_members.
  rewrite <- (N2Nat.id c). apply in_map, in_seq. lia.
Qed.

(** No whitespace character is uppercase. *)
Lemma isupper_not_space c : isupper c = true -> isspace c = false.
Proof.
  intros Hu. destruct (isspace c) eqn:Hs; [|reflexivity].
  apply in_ranges_members in Hs.
  assert (H : forallb (fun c => negb (isupper c))
                (concat (map range_members Unicode.whitespace_table)) = true)
    by now vm_compute.
  rewrite forallb_forall in H. apply H in Hs. now rewrite Hu in Hs.
Qed.

Lemma split_hd_no_sep sep s : contains sep (hd [] (split sep s)) = false.
Proof.
  induction s as [|c s IH]; simpl; [reflexivity|].
  destruct (N.eqb_spec c sep) as [->|Hne]; [reflexivity|].
  destruct (split sep s) as [|p ps]; simpl in *.
  - rewrite orb_false_r. now apply N.eqb_neq.
  - rewrite IH, orb_false_r. now apply N.eqb_neq.
Qed.

Lemma split_hd_cons sep c s :
  c <> sep -> hd [] (split sep (c :: s)) = c :: hd [] (split sep s).
Proof.
  intros H. simpl. apply N.eqb_neq in H. rewrite H.
  destruct s as [|d s]; [reflexivity|]. simpl.
  destruct (d =? sep)%N; [reflexivity|]. now destruct (split sep s).
Qed.

Lemma split_hd_In sep x s : In x (hd [] (split sep s)) -> In x s.
Proof.
  induction s as [|c s IH]; simpl; [auto|].
  destruct (c =? sep)%N; [intros []|].
  destruct (split sep s) as [|p ps]; simpl in *; intros [H|H]; auto.
Qed.

Lemma split_parts_no_sep sep s p : In p (split sep s) -> contains sep p = false.
Proof.
  revert p. induction s as [|c s IH]; simpl; intros p.
  - now intros [<-|[]].
  - destruct (N.eqb_spec c sep) as [->|Hne].
    + intros [<-|H]; [reflexivity | auto].
    + destruct (split sep s) as [|q qs]; simpl.
      * intros [<-|[]]. simpl. rewrite orb_false_r. now apply N.eqb_neq.
      * intros [<-|H]; [|apply IH; now right]. simpl.
        rewrite (IH q) by now left. rewrite orb_false_r. now apply N.eqb_neq.
Qed.

Lemma split_parts_In sep s p x : In p (split sep s) -> In x p -> In x s.
Proof.
  revert p. induction s as [|c s IH]; simpl; intros p.
  - now intros [<-|[]].
  - destruct (c =? sep)%N.
    + intros [<-|H] Hx; [destruct Hx | right; eauto].
    + destruct (split sep s) as [|q qs]; simpl.
      * intros [<-|[]] [<-|[]]. now left.
      * intros [<-|H] Hx; [|right; apply (IH p); [now right | exact Hx]].
        destruct Hx as [<-|Hx]; [now left | right; apply (IH q); [now left | exact Hx]].
Qed.

(** Where rule 3's pattern matches: digits, a full stop, whitespace and the
    label, then a colon or the end of the line. *)
Lemma numbered_inv l m :
  re_search numbered_pattern l = Some m ->
  exists ds sp c g tl,
    l = ds ++ chr "." :: sp ++ c :: g ++ tl /\
    forallb isdecimal ds = true /\ 1 <= length ds /\
    forallb isspace sp = true /\ 1 <= length sp /\
    upper_AZ c = true /\ forallb label_char g = true /\ 1 <= length g /\
    (tl = [] \/ tl = [10%N] \/ exists tl', tl = chr ":" :: tl') /\
    group 1 m = c :: g.
Proof.
  unfold numbered_pattern. rewrite re_search_Bol. cbn [re_match pos rest caps].
  intros (j & Hj & Hds & Hm)%rep_greedy_inv.
  destruct (drop j l) as [|d s] eqn:Hd; [discriminate|].
  destruct (one "." d) eqn:Hdot; [|discriminate].
  apply N.eqb_eq in Hdot as ->.
  apply rep_greedy_inv in Hm as (j2 & Hj2 & Hsp & Hm).
  apply label_inv in Hm as (c & g & tl & Hs & Hc & Hg & Hlen & Hm).
  cbn [pos rest caps] in Hs, Hm.
  exists (take j l), (take j2 s), c, g, tl.
  rewrite <- Hs, take_drop, <- Hd, take_drop, !length_take_le by lia.
  assert (Htl : (tl = [] \/ tl = [10%N] \/ exists tl', tl = chr ":" :: tl') /\
                caps m = [(1, c :: g)]).
  { destruct tl as [|x tl']; [inversion Hm; auto|].
    destruct (one ":" x) eqn:Hx.
    - apply N.eqb_eq in Hx as ->. inversion Hm. eauto.
    - destruct tl'; [|discriminate].
      destruct (N.eqb_spec x 10) as [->|]; [|discriminate]. inversion Hm. auto. }
  destruct Htl as [Htl Hcaps].
  repeat split; auto; try lia. unfold group. now rewrite Hcaps.
Qed.

(** Where rule 4's pattern matches: a bullet, whitespace and the label. *)
Lemma checkbox_inv l m :
  re_search checkbox_pattern l = Some m ->
  exists b sp c g tl,
    l = b :: sp ++ c :: g ++ tl /\ checkbox_glyph b = true /\
    forallb isspace sp = true /\ 1 <= length sp /\
    upper_AZ c = true /\ forallb label_char g = true /\ 1 <= length g /\
    group 1 m = c :: g.
Proof.
  unfold checkbox_pattern. rewrite re_search_Bol. cbn [re_match pos rest caps].
  destruct l as [|b s]; [discriminate|].
  destruct (checkbox_glyph b) eqn:Hb; [|discriminate].
  intros (j & Hj & Hsp & Hm)%rep_greedy_inv.
  apply label_inv in Hm as (c & g & tl & Hs & Hc & Hg & Hlen & Hm).
  cbn [pos rest caps] in Hs, Hm.
  exists b, (take j s), c, g, tl.
  rewrite <- Hs, take_drop, length_take_le by lia.
  inversion Hm. repeat split; auto; lia.
Qed.

(** What any of the four patterns captures: an uppercase letter and one or
    more label characters, all of them characters of the line. *)
Lemma pattern_group pattern l m :
  pattern = colon_pattern \/ pattern = underscore_pattern \/
  pattern = numbered_pattern \/ pattern = checkbox_pattern ->
  re_search pattern l = Some m ->
  exists c g, group 1 m = c :: g /\ upper_AZ c = true /\
    forallb label_char g = true /\ 1 <= length g /\
    forall x, In x (c :: g) -> In x l.
Proof.
  intros [->|[->|[->| ->]]] H.
  - apply colon_inv in H as (c & g & sp & tl & -> & Hc & Hg & Hlen & _ & _ & Hgrp).
    exists c, g. repeat split; auto.
    intros x [<-|Hx]; [now left | right; apply in_or_app; now left].
  - apply underscore_inv in H as (c & g & sp & tl & -> & Hc & Hg & Hlen & _ & _ & Hgrp).
    exists c, g. repeat split; auto.
    intros x [<-|Hx]; [now left | right; apply in_or_app; now left].
  - apply numbered_inv in H
      as (ds & sp & c & g & tl & -> & _ & _ & _ & _ & Hc & Hg & Hlen & _ & Hgrp).
    exists c, g. repeat split; auto.
    intros x Hx. apply in_or_app. right. right. apply in_or_app. right.
    destruct Hx as [<-|Hx]; [now left | right; apply in_or_app; now left].
  - apply checkbox_inv in H
      as (b & sp & c & g & tl & -> & _ & _ & _ & Hc & Hg & Hlen & Hgrp).
    exists c, g. repeat split; auto.
    intros x Hx. right. apply in_or_app. right.
    destruct Hx as [<-|Hx]; [now left | right; apply in_or_app; now left].
Qed.

(** Where a name comes from: a pattern and its length test, or rule 5. *)
Lemma classify_cases line f :
  classify line = Some f ->
  (exists pattern lo m,
     (pattern = colon_pattern \/ pattern = underscore_pattern \/
      pattern = numbered_pattern \/ pattern = checkbox_pattern) /\
     2 <= lo /\
     re_search pattern (strip line) = Some m /\
     accept lo (strip (group 1 m)) = Some f) \/
  (fallback_guard (strip line) = true /\ fallback_field (strip line) = Some f).
Proof.
  unfold classify, classify_line. cbv zeta.
  destruct (strip line) as [|c l] eqn:E; [discriminate|].
  destruct (re_search colon_pattern _) as [m|] eqn:E1.
  { intros H. left. exists colon_pattern, 3, m. auto 10. }
  destruct (re_search underscore_pattern _) as [m|] eqn:E2.
  { intros H. left. exists underscore_pattern, 3, m. auto 10. }
  destruct (re_search numbered_pattern _) as [m|] eqn:E3.
  { intros H. left. exists numbered_pattern, 3, m. auto 10. }
  destruct (re_search checkbox_pattern _) as [m|] eqn:E4.
  { intros H. left. exists checkbox_pattern, 2, m. auto 10. }
  destruct (fallback_guard _) eqn:E5; [|discriminate]. auto.
Qed.

Lemma classify_name line f :
  classify line = Some f ->
  (exists c t, f = c :: t /\ isupper c = true) /\
  contains (chr ":") f = false /\
  (forall x, In x f -> In x line).
Proof.
  intros [(pat & lo & m & Hpat & Hlo & Hm & Ha)|[Hg Hf]]%classify_cases.
  - apply accept_length in Ha as [-> _].
    destruct (pattern_group pat _ m Hpat Hm) as (c & g & -> & Hc & Hlbl & Hlen & Hin).
    rewrite strip_cons by now apply upper_AZ_not_space.
    split; [|split].
    + exists c, (rstrip g). split; [reflexivity | now apply upper_AZ_isupper].
    + rewrite <- strip_cons by now apply upper_AZ_not_space.
      apply contains_strip.
      change (c :: g) with ([c] ++ g). rewrite contains_app.
      rewrite (contains_class upper_AZ _ [c]); [|reflexivity|simpl; now rewrite Hc].
      now rewrite (contains_class label_char _ g).
    + rewrite <- strip_cons by now apply upper_AZ_not_space.
      intros x Hx%strip_In. now apply strip_In, Hin.
  - unfold fallback_field in Hf. cbv zeta in Hf.
    destruct (2 <=? _); [|discriminate].
    destruct (_ && _); [|discriminate]. injection Hf as <-.
    destruct (strip line) as [|c l] eqn:E; [discriminate|].
    unfold fallback_guard in Hg. apply andb_prop in Hg as [Hc _].
    assert (Hne : c <> chr ":") by (intros ->; discriminate Hc).
    split; [|split].
    + rewrite split_hd_cons by exact Hne.
      rewrite strip_cons by now apply isupper_not_space. eauto.
    + apply contains_strip, split_hd_no_sep.
    + intros x Hx%strip_In%split_hd_In. apply strip_In. now rewrite E.
Qed.

(** What holds of a name of a text. *)
Lemma names_of_text (text name : list N) :
  In name (identify_field_names text) ->
  (exists c t, name = c :: t /\ isupper c = true) /\
  contains (chr ":") name = false /\
  contains 10%N name = false /\
  (forall x, In x name -> In x text).
Proof.
  rewrite identify_field_names_omap. change (chr "010") with 10%N.
  intros H%list_elem_of_In. apply list_elem_of_omap in H as (line & Hl & Hf).
  apply list_elem_of_In in Hl.
  destruct (classify_name _ _ Hf) as (Hup & Hcolon & Hsub).
  pose proof (split_parts_no_sep _ _ _ Hl) as Hnl.
  split; [exact Hup|]. split; [exact Hcolon|]. split.
  - destruct (contains 10%N name) eqn:E; [|reflexivity].
    apply contains_In, Hsub, contains_In in E. congruence.
  - intros x Hx%Hsub. eapply split_parts_In; eauto.
Qed.

(** X3: every name that [identify_field_names] returns starts with an
    uppercase character (so it is not empty), holds no colon and no newline,
    and is made of characters of the text. *)
Theorem identify_field_names_names (text name : list N) :
  In name (identify_field_names text) ->
  (exists c t, name = c :: t /\ isupper c = true) /\
  contains (chr ":") name = false /\
  contains 10%N name = false /\
  (forall x, In x name -> In x text).
Proof. apply names_of_text. Qed.

Lemma identify_field_names_names_witness :
  contains (chr ":") (lit "Effective Date") = false.
Proof.
  refine (proj1 (proj2 (identify_field_names_names scenario (lit "Effective Date") _))).
  vm_compute. auto 10.
Defined.

(** ** Lines that yield nothing *)

Lemma fallback_needs_colon l : contains (chr ":") l = false -> fallback_guard l = false.
Proof.
  intros H. unfold fallback_guard. destruct l; [reflexivity|].
  rewrite H. apply andb_false_r.
Qed.

Lemma numbered_needs_digit c l : isdecimal c = false -> re_search numbered_pattern (c :: l) = None.
Proof.
  intros H. destruct (re_search numbered_pattern (c :: l)) as [m|] eqn:E; [|reflexivity].
  apply numbered_head in E as (c' & t & [= <- _] & Hd). congruence.
Qed.

Lemma checkbox_needs_bullet c l :
  checkbox_glyph c = false -> re_search checkbox_pattern (c :: l) = None.
Proof.
  intros H. destruct (re_search checkbox_pattern (c :: l)) as [m|] eqn:E; [|reflexivity].
  apply checkbox_head in E as (c' & t & [= <- _] & Hd). congruence.
Qed.

Lemma classify_plain_line line :
  contains (chr ":") line = false -> contains (chr "_") line = false ->
  match strip line with
  | c :: _ => isdecimal c = false /\ checkbox_glyph c = false
  | [] => True
  end ->
  classify line = None.
Proof.
  intros H1%contains_strip H2%contains_strip. unfold classify, classify_line. cbv zeta.
  destruct (strip line) as [|c l]; [reflexivity|]. intros [Hd Hb].
  rewrite colon_needs_colon, underscore_needs_underscore by assumption.
  rewrite numbered_needs_digit, checkbox_needs_bullet by assumption.
  now rewrite fallback_needs_colon.
Qed.

Lemma contains_part sep c s p :
  In p (split sep s) -> contains c s = false -> contains c p = false.
Proof.
  intros Hp Hs. destruct (contains c p) eqn:E; [|reflexivity].
  apply contains_In in E. apply (split_parts_In _ _ _ _ Hp), contains_In in E. congruence.
Qed.

(** X4: a page of plain text has no field: a text without colon and
    underscore, no line of which starts (after leading whitespace) with a
    digit or a checkbox bullet, yields the empty list. *)
Theorem plain_text_has_no_field (text : list N) :
  contains (chr ":") text = false -> contains (chr "_") text = false ->
  (forall line c rest, In line (split 10%N text) -> strip line = c :: rest ->
     isdecimal c = false /\ checkbox_glyph c = false) ->
  identify_field_names text = [].
Proof.
  intros H1 H2 H. rewrite identify_field_names_omap. change (chr "010") with 10%N.
  assert (Hall : forall line, In line (split 10%N text) -> classify line = None).
  { intros line Hl. apply classify_plain_line.
    - eapply contains_part; eauto.
    - eapply contains_part; eauto.
    - destruct (strip line) as [|c rest] eqn:E; [exact I | eapply H; eauto]. }
  revert Hall. generalize (split 10%N text) as ls. clear.
  induction ls as [|l ls IH]; intros Hall; [reflexivity|]. csimpl.
  rewrite Hall by now left. apply IH. intros line Hl. apply Hall. now right.
Qed.

Lemma plain_text_has_no_field_witness :
  identify_field_names
    (lit "This form is to be completed by the applicant." ++ [10%N] ++
     lit "  Please print clearly") = [].
Proof.
  apply plain_text_has_no_field; [reflexivity | reflexivity |].
  intros line c rest [<-|[<-|[]]] [= <- _]; split; reflexivity.
Defined.

(** ** Lines that two rules could claim *)

(** X5: the patterns of rules 1, 2 and 3 match no line in common, nor do
    those of rules 3 and 4; rule 4's pattern shares a line with rule 1's or
    rule 2's only when the bullet is the capital letter O. *)
Theorem patterns_overlap (l : list N) (m1 m2 : mstate) :
  (re_search colon_pattern l = Some m1 ->
   re_search underscore_pattern l = Some m2 -> False) /\
  (re_search numbered_pattern l = Some m1 ->
   re_search colon_pattern l = None /\ re_search underscore_pattern l = None /\
   re_search checkbox_pattern l = None) /\
  (re_search checkbox_pattern l = Some m1 ->
   re_search colon_pattern l = Some m2 \/ re_search underscore_pattern l = Some m2 ->
   exists rest, l = chr "O" :: rest).
Proof.
  split; [apply colon_underscore_exclusive|]. split.
  - intros H. split; [eapply numbered_not_colon, H|].
    split; [eapply numbered_not_underscore, H|].
    destruct (re_search checkbox_pattern l) as [m|] eqn:E; [|reflexivity].
    apply checkbox_not_numbered in E. congruence.
  - intros (b & t & -> & Hb)%checkbox_head Hup.
    assert (Hc : upper_AZ b = true).
    { destruct Hup as [H|H].
      - now apply colon_inv in H as (c & g & sp & tl & [= <- _] & Hc & _).
      - now apply underscore_inv in H as (c & g & sp & tl & [= <- _] & Hc & _). }
    exists t. f_equal.
    apply checkbox_glyph_cases in Hb as [->|[->|[->|[->| ->]]]];
      try discriminate Hc. reflexivity.
Qed.

Lemma patterns_overlap_witness :
  exists rest, lit "O Name:" = chr "O" :: rest.
Proof.
  destruct (patterns_overlap (lit "O Name:") (MState 6 (lit ":") [(1, lit "Name")])
              (MState 7 [] [(1, lit "O Name")])) as (_ & _ & H).
  apply H; [reflexivity | left; reflexivity].
Defined.

(** ** Rule 1 on a label and a colon *)

Lemma colon_match c g sp tl :
  upper_AZ c = true -> forallb label_char g = true -> 1 <= length g ->
  forallb isspace sp = true -> tl = [] \/ tl = [10%N] ->
  exists m,
    re_search colon_pattern (c :: g ++ chr ":" :: sp ++ tl) = Some m /\
    group 1 m = c :: g.
Proof.
  intros Hc Hg Hlen Hsp Htl.
  assert (Hall : forallb isspace (sp ++ tl) = true).
  { rewrite forallb_app, Hsp. now destruct Htl as [->| ->]. }
  eexists. unfold colon_pattern. rewrite re_search_Bol. cbn [re_match]. split.
  - eapply label_Some with (j := length g); cbn [pos rest caps].
    + reflexivity.
    + exact Hc.
    + rewrite length_app. lia.
    + now rewrite take_app_length.
    + rewrite drop_app_length, take_app_length. cbn [re_match pos rest caps].
      change (one ":" (chr ":")) with true. cbv iota.
      apply rep_greedy_Some with (j := length (sp ++ tl)).
      * lia.
      * now rewrite firstn_all.
      * rewrite drop_all. reflexivity.
      * intros; lia.
    + intros j' Hj' Hp'.
      apply (forallb_take_bound label_char g (chr ":") (sp ++ tl)) in Hp'; [lia|reflexivity].
  - reflexivity.
Qed.

(** X6: rule 1's pattern matches the lines made of an uppercase letter A-Z,
    one or more label characters, a colon and then whitespace only (the last
    of it perhaps a newline), and no other; what it captures is the text
    before the colon. *)
Theorem colon_pattern_matches (l lbl : list N) :
  (exists m, re_search colon_pattern l = Some m /\ group 1 m = lbl) <->
  (exists c g sp,
     l = lbl ++ chr ":" :: sp /\ lbl = c :: g /\ upper_AZ c = true /\
     forallb label_char g = true /\ 1 <= length g /\ forallb isspace sp = true).
Proof.
  split.
  - intros (m & (c & g & sp & tl & -> & Hc & Hg & Hlen & Hsp & Htl & Hgrp)%colon_inv & <-).
    exists c, g, (sp ++ tl). rewrite Hgrp. repeat split; auto.
    rewrite forallb_app, Hsp. now destruct Htl as [->| ->].
  - intros (c & g & sp & -> & -> & Hc & Hg & Hlen & Hsp).
    destruct (colon_match c g sp [] Hc Hg Hlen Hsp) as (m & Hm & Hgrp); [now left|].
    rewrite app_nil_r in Hm. exists m. split; [exact Hm | exact Hgrp].
Qed.

(** X7: a line made of a label, a colon and whitespace is claimed by rule 1,
    which returns the label without the whitespace around it when that has
    more than 3 and fewer than 100 characters, and nothing otherwise. *)
Theorem colon_rule (c : N) (g sp : list N) :
  upper_AZ c = true -> forallb label_char g = true -> 1 <= length g ->
  forallb isspace sp = true ->
  classify_line (c :: g ++ chr ":" :: sp) = Claimed 1 (accept 3 (strip (c :: g))) /\
  (classify (c :: g ++ chr ":" :: sp) = Some (strip (c :: g)) <->
   3 < length (strip (c :: g)) < 100).
Proof.
  intros Hc Hg Hlen Hsp.
  assert (Hstrip : strip (c :: g ++ chr ":" :: sp) = c :: g ++ [chr ":"]).
  { replace (c :: g ++ chr ":" :: sp) with ((c :: g ++ [chr ":"]) ++ sp)
      by (simpl; now rewrite <- app_assoc).
    rewrite strip_spaces by exact Hsp.
    apply strip_id; [now apply upper_AZ_not_space | reflexivity]. }
  destruct (colon_match c g [] [] Hc Hg Hlen eq_refl) as (m & Hm & Hgrp); [now left|].
  assert (H : classify_line (c :: g ++ chr ":" :: sp) =
              Claimed 1 (accept 3 (strip (c :: g)))).
  { rewrite (classify_line_colon _ m) by now rewrite Hstrip.
    unfold rule_field. now rewrite Hgrp. }
  split; [exact H|]. unfold classify. rewrite H. simpl. split.
  - now intros [_ Hb]%accept_length.
  - intros Hb. unfold accept.
    destruct (Nat.ltb_spec 3 (length (strip (c :: g)))); [|lia].
    destruct (Nat.ltb_spec (length (strip (c :: g))) 100); [|lia]. reflexivity.
Qed.

Lemma colon_rule_witness :
  classify (lit "Agent Name :  ") = Some (lit "Agent Name").
Proof.
  apply (colon_rule (chr "A") (lit "gent Name ") (lit "  "));
    [reflexivity | reflexivity | simpl; lia | reflexivity | vm_compute; lia].
Defined.

(** ** Rule 3 on a numbered label *)

Lemma colon_needs_upper c l : upper_AZ c = false -> re_search colon_pattern (c :: l) = None.
Proof.
  intros H. destruct (re_search colon_pattern (c :: l)) as [m|] eqn:E; [|reflexivity].
  apply colon_inv in E as (c' & g & sp & tl & [= <- _] & Hc & _). congruence.
Qed.

Lemma underscore_needs_upper c l :
  upper_AZ c = false -> re_search underscore_pattern (c :: l) = None.
Proof.
  intros H. destruct (re_search underscore_pattern (c :: l)) as [m|] eqn:E; [|reflexivity].
  apply underscore_inv in E as (c' & g & sp & tl & [= <- _] & Hc & _). congruence.
Qed.

Lemma numbered_match ds sp c g tl :
  forallb isdecimal ds = true -> 1 <= length ds ->
  forallb isspace sp = true -> 1 <= length sp ->
  upper_AZ c = true -> forallb label_char g = true -> 1 <= length g ->
  (tl = [] \/ exists tl', tl = chr ":" :: tl') ->
  exists m,
    re_search numbered_pattern (ds ++ chr "." :: sp ++ c :: g ++ tl) = Some m /\
    group 1 m = c :: g.
Proof.
  intros Hds Hlds Hsp Hlsp Hc Hg Hlg Htl.
  set (p := S (S (0 + length ds) + length sp) + length g).
  assert (Hend : exists m,
    re_match (Alt (Cls (one ":")) Eol) (MState p tl [(1, c :: g)]) Some = Some m /\
    group 1 m = c :: g).
  { destruct Htl as [->|(tl' & ->)]; eexists; split; reflexivity. }
  destruct Hend as (m & Hm & Hgrp). exists m. split; [|exact Hgrp].
  unfold numbered_pattern. rewrite re_search_Bol.
  cbn [re_match pos rest caps].
  apply rep_greedy_Some with (j := length ds).
  - rewrite length_app. lia.
  - now rewrite take_app_length.
  - rewrite drop_app_length. change (one "." (chr ".")) with true. cbv iota.
    apply rep_greedy_Some with (j := length sp).
    + rewrite length_app. lia.
    + now rewrite take_app_length.
    + rewrite drop_app_length.
      eapply label_Some with (j := length g); cbn [pos rest caps].
      * reflexivity.
      * exact Hc.
      * rewrite length_app. lia.
      * now rewrite take_app_length.
      * rewrite drop_app_length, take_app_length. exact Hm.
      * intros j' Hj' Hp'. exfalso. destruct Htl as [->|(tl' & ->)].
        -- rewrite app_nil_r in Hj'. lia.
        -- apply (forallb_take_bound label_char g (chr ":") tl') in Hp';
             [lia | reflexivity].
    + intros j' Hj' Hp'.
      apply (forallb_take_bound isspace sp c (g ++ tl)) in Hp'; [lia|].
      now apply upper_AZ_not_space.
  - intros j' Hj' Hp'.
    apply (forallb_take_bound isdecimal ds (chr ".") (sp ++ c :: g ++ tl)) in Hp';
      [lia | reflexivity].
Qed.

(** X8: a line without surrounding whitespace that is made of one or more
    digits, a full stop, whitespace and a label, and ends there or goes on
    with a colon, is claimed by rule 3; the label without the whitespace
    around it is returned when it has more than 3 and fewer than 100
    characters. What follows the colon is ignored. *)
Theorem numbered_rule (ds sp : list N) (c : N) (g tl : list N) :
  forallb isdecimal ds = true -> 1 <= length ds ->
  forallb isspace sp = true -> 1 <= length sp ->
  upper_AZ c = true -> forallb label_char g = true -> 1 <= length g ->
  (tl = [] \/ exists tl', tl = chr ":" :: tl') ->
  strip (ds ++ chr "." :: sp ++ c :: g ++ tl) = ds ++ chr "." :: sp ++ c :: g ++ tl ->
  classify_line (ds ++ chr "." :: sp ++ c :: g ++ tl) =
    Claimed 3 (accept 3 (strip (c :: g))).
Proof.
  intros Hds Hlds Hsp Hlsp Hc Hg Hlg Htl Hstrip.
  destruct (numbered_match ds sp c g tl Hds Hlds Hsp Hlsp Hc Hg Hlg Htl)
    as (m & Hm & Hgrp).
  assert (Hhead : exists d ds', ds = d :: ds' /\ upper_AZ d = false).
  { destruct ds as [|d ds']; simpl in Hlds; [lia|]. exists d, ds'. split; [reflexivity|].
    simpl in Hds. apply andb_prop in Hds as [Hd _].
    destruct (upper_AZ d) eqn:E; [|reflexivity].
    apply upper_AZ_not_decimal in E. congruence. }
  destruct Hhead as (d & ds' & -> & Hd).
  rewrite (classify_line_numbered _ m).
  - unfold rule_field. now rewrite Hgrp.
  - rewrite Hstrip. now apply colon_needs_upper.
  - rewrite Hstrip. now apply underscore_needs_upper.
  - now rewrite Hstrip.
Qed.

Lemma numbered_rule_witness :
  classify_line (lit "12. Coverage Type: see page 3") =
    Claimed 3 (Some (lit "Coverage Type")).
Proof.
  apply (numbered_rule (lit "12") (lit " ") (chr "C") (lit "overage Type")
           (lit ": see page 3"));
    try reflexivity; try (simpl; lia).
  right. eexists. reflexivity.
Defined.

(** ** Rule 4 on a bullet and a label *)

(** X9: a line made of a checkbox bullet, whitespace and a label of two or
    more characters that ends in a non-blank is claimed by rule 4, whatever
    the bullet; the label is returned when it has more than 2 and fewer than
    100 characters, and nothing is returned otherwise. *)
Theorem checkbox_rule_bounds (b : N) (ws : list N) (c : N) (t : list N) (d : N) :
  checkbox_glyph b = true ->
  forallb isspace ws = true -> 1 <= length ws ->
  upper_AZ c = true -> forallb label_char (t ++ [d]) = true ->
  isspace d = false ->
  (2 < length (c :: t ++ [d]) < 100 ->
   classify (b :: ws ++ c :: t ++ [d]) = Some (c :: t ++ [d])) /\
  (~ 2 < length (c :: t ++ [d]) < 100 ->
   classify_line (b :: ws ++ c :: t ++ [d]) = Claimed 4 None).
Proof.
  intros Hb Hws Hlen Hc Ht Hd.
  pose proof (checkbox_rule b ws c t d Hb Hws Hlen Hc Ht Hd) as H.
  split; intros Hbound.
  - unfold classify. rewrite H. simpl. unfold accept.
    destruct (Nat.ltb_spec 2 (length (c :: t ++ [d]))); [|lia].
    destruct (Nat.ltb_spec (length (c :: t ++ [d])) 100); [|lia]. reflexivity.
  - rewrite H. f_equal. now apply accept_None.
Qed.

Lemma checkbox_rule_bounds_witness :
  classify (lit "O Option") = Some (lit "Option") /\
  classify_line ([0x25CB%N] ++ lit "  Ok") = Claimed 4 None.
Proof.
  split.
  - apply (checkbox_rule_bounds (chr "O") (lit " ") (chr "O") (lit "ptio") (chr "n"));
      try reflexivity; simpl; lia.
  - apply (checkbox_rule_bounds 0x25CB%N (lit "  ") (chr "O") [] (chr "k"));
      try reflexivity; simpl; lia.
Defined.

(** ** Rule 5 on a label, a colon and a value *)

(** No decimal digit is uppercase. *)
Lemma isupper_not_decimal c : isupper c = true -> isdecimal c = false.
Proof.
  intros Hu. destruct (isdecimal c) eqn:Hs; [|reflexivity].
  apply in_ranges_members in Hs.
  assert (H : forallb (fun c => negb (isupper c))
                (concat (map range_members Unicode.decimal_table)) = true)
    by now vm_compute.
  rewrite forallb_forall in H. apply H in Hs. now rewrite Hu in Hs.
Qed.

(** The text before the first separator. *)
Lemma split_hd_app sep a b :
  contains sep a = false -> hd [] (split sep (a ++ sep :: b)) = a.
Proof.
  intros H. rewrite split_app, split_no_sep by exact H. reflexivity.
Qed.

(** Rule 1 needs whitespace only after the first colon. *)
Lemma colon_needs_blank_tail a b x :
  contains (chr ":") a = false -> In x b -> isspace x = false ->
  re_search colon_pattern (a ++ chr ":" :: b) = None.
Proof.
  intros Ha Hx Hs.
  destruct (re_search colon_pattern _) as [m|] eqn:E; [|reflexivity]. exfalso.
  apply colon_inv in E as (c & g & sp & tl & Hl & Hc & Hg & _ & Hsp & Htl & _).
  assert (Hhd : hd [] (split (chr ":") (a ++ chr ":" :: b)) = c :: g).
  { rewrite Hl. apply (split_hd_app (chr ":") (c :: g)).
    change (c :: g) with ([c] ++ g). rewrite contains_app.
    rewrite (contains_class upper_AZ _ [c]); [|reflexivity|simpl; now rewrite Hc].
    now rewrite (contains_class label_char _ g). }
  rewrite split_hd_app in Hhd by exact Ha. subst a.
  simpl in Hl. injection Hl as Hl. apply app_inv_head in Hl. injection Hl as ->.
  apply in_app_or in Hx as [Hx|Hx].
  - rewrite forallb_forall in Hsp. apply Hsp in Hx. congruence.
  - destruct Htl as [->| ->]; [destruct Hx|].
    destruct Hx as [<-|[]]. discriminate Hs.
Qed.

(** X10: a line without surrounding whitespace that starts with an uppercase
    character other than the bullet O, has no underscore, and has something
    other than whitespace after its first colon, is left to rule 5: the text
    before the first colon, stripped, is returned when it has at most 8
    words and fewer than 100 characters. *)
Theorem fallback_rule (c : N) (a b : list N) (x : N) :
  isupper c = true -> checkbox_glyph c = false ->
  contains (chr ":") a = false ->
  contains (chr "_") (c :: a ++ chr ":" :: b) = false ->
  In x b -> isspace x = false ->
  strip (c :: a ++ chr ":" :: b) = c :: a ++ chr ":" :: b ->
  classify_line (c :: a ++ chr ":" :: b) =
    Claimed 5
      (if (length (split_whitespace (strip (c :: a))) <=? 8) &&
          (length (strip (c :: a)) <? 100)
       then Some (strip (c :: a)) else None).
Proof.
  intros Hc Hb Ha Hu Hx Hs Hstrip.
  assert (Hca : contains (chr ":") (c :: a) = false).
  { change (c :: a) with ([c] ++ a). rewrite contains_app, Ha, orb_false_r.
    apply (contains_class isupper); [now vm_compute | simpl; now rewrite Hc]. }
  assert (Hin : contains (chr ":") (c :: a ++ chr ":" :: b) = true).
  { apply contains_In. right. apply in_or_app. right. now left. }
  pose proof (colon_needs_blank_tail (c :: a) b x Hca Hx Hs) as H1.
  change ((c :: a) ++ chr ":" :: b) with (c :: a ++ chr ":" :: b) in H1.
  unfold classify_line. cbv zeta. rewrite Hstrip, H1.
  rewrite underscore_needs_underscore by exact Hu.
  rewrite numbered_needs_digit by now apply isupper_not_decimal.
  rewrite checkbox_needs_bullet by exact Hb.
  unfold fallback_guard. rewrite Hc, Hin. cbn [andb]. f_equal.
  unfold fallback_field. cbv zeta.
  pose proof (split_sep _ _ Hin) as Hlen. apply Nat.leb_le in Hlen. rewrite Hlen.
  pose proof (split_hd_app (chr ":") (c :: a) b Hca) as H2.
  change ((c :: a) ++ chr ":" :: b) with (c :: a ++ chr ":" :: b) in H2.
  now rewrite H2.
Qed.

Lemma fallback_rule_witness :
  classify_line (lit "Effective Date: 01/01/2024") =
    Claimed 5 (Some (lit "Effective Date")).
Proof.
  apply (fallback_rule (chr "E") (lit "ffective Date") (lit " 01/01/2024") (chr "4"));
    try reflexivity.
  vm_compute. auto 20.
Defined.

(** ** [extract_fields] *)

Section Pages.
Context {Image : Type} (e : @env Image).

Lemma process_pages_elem images : forall field_names w,
  snd (process_pages e images field_names w) = w /\
  forall found, fst (process_pages e images field_names w) = inr found ->
    forall name : list N,
      name ∈ found <->
      name ∈ field_names \/
      exists image text, image ∈ images /\
        extract_text_from_image e image = Some text /\
        name ∈ identify_field_names text.
Proof.
  induction images as [|image images IH]; intros S w; simpl.
  - split; [reflexivity|]. intros found [= <-] name. split; [auto|].
    intros [H|(image & text & H%elem_of_nil & _)]; [exact H | destruct H].
  - destruct (extract_text_from_image e image) as [text|] eqn:E.
    + destruct (IH (update S (identify_field_names text)) w) as [Hw Hin].
      split; [exact Hw|]. intros found Hf name. rewrite (Hin found Hf name).
      rewrite elem_of_update. split.
      * intros [[H|H]|(i & t & Hi & Ht & Hn)]; [auto | |].
        -- right. exists image, text. split; [apply elem_of_cons; now left | auto].
        -- right. exists i, t. split; [apply elem_of_cons; now right | auto].
      * intros [H|(i & t & [->|Hi]%elem_of_cons & Ht & Hn)]; [auto | |].
        -- left. right. congruence.
        -- right. eauto.
    + split; [reflexivity | discriminate].
Qed.

End Pages.

(** X11: [extract_fields] does not touch the output file; when it returns,
    the set it returns holds the names that were in the set before and the
    names found in the OCR text of the pages, and no other. *)
Theorem extract_fields_names {Image : Type} (e : @env Image)
    (field_names : gset (list N)) (w : file) :
  snd (extract_fields e field_names w) = w /\
  forall found, fst (extract_fields e field_names w) = inr found ->
    exists images, convert_from_path e = Some images /\
    forall name : list N,
      name ∈ found <->
      name ∈ field_names \/
      exists image text, image ∈ images /\
        extract_text_from_image e image = Some text /\
        name ∈ identify_field_names text.
Proof.
  unfold extract_fields. destruct (convert_from_path e) as [images|].
  - destruct (process_pages_elem e images field_names w) as [Hw Hin].
    split; [exact Hw|]. intros found Hf. exists images. split; [reflexivity | auto].
  - split; [reflexivity | discriminate].
Qed.

(** ** The report *)

Lemma length_sorted_fields (X : gset (list N)) : length (sorted_fields X) = size X.
Proof. unfold sorted_fields. now rewrite sorted_Permutation. Qed.

Lemma length_enumerate {A} (l : list A) : forall start, length (enumerate l start) = length l.
Proof. induction l as [|x l IH]; intros start; simpl; [reflexivity | now rewrite IH]. Qed.

Lemma lookup_enumerate {A} (l : list A) : forall start i x,
  l !! i = Some x -> enumerate l start !! i = Some (start + i, x).
Proof.
  induction l as [|y l IH]; intros start [|i] x; simpl; try discriminate.
  - intros [= ->]. now rewrite Nat.add_0_r.
  - intros H. rewrite (IH (S start) i x H). f_equal. f_equal. lia.
Qed.

Lemma report_length {Image : Type} (e : @env Image) (X : gset (list N)) :
  length (report e X) = 5 + size X.
Proof.
  unfold report. cbv zeta.
  now rewrite length_app, length_map, length_enumerate, length_sorted_fields.
Qed.

Lemma report_lookup {Image : Type} (e : @env Image) (X : gset (list N)) i name :
  sorted_fields X !! i = Some name ->
  report e X !! (5 + i) = Some (decimal (S i) ++ lit ". " ++ name ++ [10%N]).
Proof.
  intros H. unfold report. cbv zeta.
  rewrite lookup_app_r by (simpl; lia).
  replace (5 + i - length (report_header e (sorted_fields X))) with i
    by (simpl; lia).
  rewrite list_lookup_fmap, (lookup_enumerate _ 1 i name H). reflexivity.
Qed.

(** X12: [save_results] raises and leaves the file as it was when the file
    does not open; when it opens, whatever the file held is replaced by the
    report, up to the first chunk that UTF-8 cannot encode, and when every
    chunk can be encoded and the two messages can be printed it returns and
    the file holds the whole report. The report is five header chunks, of
    which the fourth gives the number of names, then one chunk for each
    name, the i-th being the number i, a full stop, a space, the i-th name
    in sorted order and a newline. *)
Theorem report_layout {Image : Type} (h : host) (e : @env Image)
    (path : list N) (field_names : gset (list N)) (before : file) :
  (opens h = false ->
   save_results h e path field_names before = (inl Exception, before)) /\
  (opens h = true ->
   snd (save_results h e path field_names before) =
     Some (written (report e field_names))) /\
  (opens h = true ->
   forallb encodable (report e field_names) = true ->
   printable (stdout_encodes h) (saved_message path) = true ->
   printable (stdout_encodes h) (total_message (size field_names)) = true ->
   save_results h e path field_names before =
     (inr tt, Some (report e field_names))) /\
  length (report e field_names) = 5 + size field_names /\
  report e field_names !! 3 =
    Some (lit "Total Fields Found: " ++ decimal (size field_names) ++ [10%N]) /\
  forall i name, sorted_fields field_names !! i = Some name ->
    report e field_names !! (5 + i) =
      Some (decimal (S i) ++ lit ". " ++ name ++ [10%N]).
Proof.
  split; [|split; [|split]].
  - intros H. now rewrite save_results_spec, H.
  - intros H. now rewrite save_results_spec, H.
  - intros H He H1 H2. rewrite save_results_spec, H, He, H1, H2.
    now rewrite written_all.
  - split; [apply report_length|]. split.
    + unfold report, report_header. cbv zeta. now rewrite length_sorted_fields.
    + apply report_lookup.
Qed.

Lemma report_layout_witness :
  save_results (Host Args (Some (lit "form.txt")) true (fun _ => true))
    (Env true (lit "form.pdf") (Some [1]) (fun _ => Some []))
    (lit "form.txt") {[ lit "Zip Code"; lit "Agent Name" ]}
    (Some [lit "an older report"]) =
    (inr tt,
     Some (report (Env true (lit "form.pdf") (Some [1]) (fun _ => Some []))
             {[ lit "Zip Code"; lit "Agent Name" ]})) /\
  report (Env true (lit "form.pdf") (Some [1]) (fun _ => Some []))
    {[ lit "Zip Code"; lit "Agent Name" ]} !! 6 = Some (lit "2. Zip Code" ++ [10%N]).
Proof.
  destruct (report_layout (Host Args (Some (lit "form.txt")) true (fun _ => true))
              (Env true (lit "form.pdf") (Some [1]) (fun _ => Some []))
              (lit "form.txt") {[ lit "Zip Code"; lit "Agent Name" ]}
              (Some [lit "an older report"])) as (_ & _ & H1 & _ & _ & H2).
  split.
  - apply H1; now vm_compute.
  - refine (H2 1 (lit "Zip Code") _). now vm_compute.
Defined.

(** The digits of a number are digits. *)
Lemma decimal_digits n x : In x (decimal n) -> (48 <= x <= 57)%N.
Proof.
  unfold decimal. generalize (Nat.to_uint n) as d.
  induction d as [|d IH|d IH|d IH|d IH|d IH|d IH|d IH|d IH|d IH|d IH]; simpl;
    try (intros [<-|H]; [vm_compute; split; discriminate | auto]).
  intros [].
Qed.

Lemma decimal_no_newline n : contains 10%N (decimal n) = false.
Proof.
  destruct (contains 10%N (decimal n)) eqn:E; [|reflexivity].
  apply contains_In, decimal_digits in E. lia.
Qed.

Lemma aggregate_no_newline texts (name : list N) :
  name ∈ aggregate texts -> contains 10%N name = false.
Proof.
  intros (text & _ & Hn%list_elem_of_In)%elem_of_aggregate.
  now apply names_of_text in Hn.
Qed.

(** X13: in the report of a run every field has a line of its own: each
    chunk after the header is one line, with no newline but the one that
    ends it. *)
Theorem report_one_line_per_field {Image : Type} (e : @env Image)
    (texts : list (list N)) (i : nat) (chunk : list N) :
  report e (aggregate texts) !! (5 + i) = Some chunk ->
  exists body, chunk = body ++ [10%N] /\ contains 10%N body = false.
Proof.
  intros H.
  assert (Hi : i < length (sorted_fields (aggregate texts))).
  { apply lookup_lt_Some in H. rewrite report_length in H.
    rewrite length_sorted_fields. lia. }
  apply lookup_lt_is_Some in Hi as (name & Hn).
  rewrite (report_lookup e _ i name Hn) in H. injection H as <-.
  exists (decimal (S i) ++ lit ". " ++ name). split; [now rewrite <- !app_assoc|].
  rewrite !contains_app, decimal_no_newline.
  rewrite (aggregate_no_newline texts name); [reflexivity|].
  apply elem_of_sorted_fields. eapply list_elem_of_lookup_2, Hn.
Qed.

Lemma report_one_line_per_field_witness :
  exists body,
    lit "1. Agent Name" ++ [10%N] = body ++ [10%N] /\ contains 10%N body = false.
Proof.
  apply (report_one_line_per_field
           (Env true (lit "form.pdf") (Some [1]) (fun _ => Some []))
           [lit "Agent Name:"] 0).
  now vm_compute.
Defined.

(** ** The run *)

Lemma Forall2_ocr_is_Some {Image : Type} (e : @env Image) images texts :
  Forall2 (fun image text => extract_text_from_image e image = Some text)
    images texts ->
  forall image, image ∈ images -> is_Some (extract_text_from_image e image).
Proof.
  induction 1 as [|image text images texts H _ IH]; intros i Hi.
  - now apply elem_of_nil in Hi.
  - apply elem_of_cons in Hi as [->|Hi]; [now rewrite H | auto].
Qed.

Lemma Forall2_ocr_functional {Image : Type} (e : @env Image) images :
  forall texts1 texts2,
  Forall2 (fun image text => extract_text_from_image e image = Some text)
    images texts1 ->
  Forall2 (fun image text => extract_text_from_image e image = Some text)
    images texts2 ->
  texts1 = texts2.
Proof.
  induction images as [|image images IH]; intros t1 t2 H1 H2;
    inversion H1; inversion H2; subst; [reflexivity|].
  f_equal; [congruence | auto].
Qed.

(** The names of a run whose pages were all read. *)
Lemma aggregate_pages {Image : Type} (e : @env Image) images texts :
  Forall2 (fun image text => extract_text_from_image e image = Some text)
    images texts ->
  forall name : list N,
    name ∈ aggregate texts <->
    exists image text, image ∈ images /\
      extract_text_from_image e image = Some text /\
      name ∈ identify_field_names text.
Proof.
  intros Hf name.
  destruct (process_pages_elem e images ∅ None) as [_ H].
  rewrite (process_pages_ok e images texts Hf) in H.
  rewrite (H (aggregate texts) eq_refl name). split; [|auto].
  intros [Hn|Hn]; [now apply elem_of_empty in Hn | exact Hn].
Qed.

(** X14: the exit status of a run is 0, 1 or 2. It is 2 exactly when
    [parse_args] meets a usage error. It is 0 exactly after [-h], or when
    the arguments are parsed, the input file exists, the output path is set,
    the rasterizer returns the pages, the OCR of every page returns a text,
    the output file opens, every chunk of the report can be encoded in UTF-8
    and the standard output takes the three messages with U+2713. *)
Theorem exit_status {Image : Type} (h : host) (e : @env Image) (before : file) :
  (fst (run h e before) = 0%N \/ fst (run h e before) = 1%N \/
   fst (run h e before) = 2%N) /\
  (fst (run h e before) = 2%N <-> parse_args h = Usage_error) /\
  (fst (run h e before) = 0%N <->
   parse_args h = Help \/
   (parse_args h = Args /\ pdf_exists e = true /\
    exists path images texts,
      output_path h = Some path /\ convert_from_path e = Some images /\
      Forall2 (fun image text => extract_text_from_image e image = Some text)
        images texts /\
      opens h = true /\
      forallb encodable (report e (aggregate texts)) = true /\
      messages_printable h path (size (aggregate texts)) = true)).
Proof.
  destruct (run_spec e h before)
    as [[Hp ->]|[[Hp ->]|[(Hp & Hwhy & ->)|
        (path & images & texts & Hp & Hx & Ho & Hc & Hf & Hop & ->)]]];
    cbn [fst snd].
  - split; [auto|]. split; [tauto|]. split; [discriminate|].
    intros [H|(H & _)]; congruence.
  - split; [auto|]. split; [split; [discriminate | congruence]|]. tauto.
  - split; [auto|]. split; [split; [discriminate | congruence]|].
    split; [discriminate|]. intros [H|(_ & Hx & path & images & texts & Ho & Hc & Hf & Hop & _)];
      [congruence|]. exfalso.
    destruct Hwhy as [Hn|[Hn|[Hn|[(images' & image & Hc' & Hi & Hn)|Hn]]]];
      [congruence.. | | congruence].
    assert (images' = images) as -> by congruence.
    apply (Forall2_ocr_is_Some e images texts Hf) in Hi as [text Ht]. congruence.
  - destruct (forallb encodable (report e (aggregate texts)) &&
              messages_printable h path (size (aggregate texts))) eqn:E.
    + split; [auto|]. split; [split; [discriminate | congruence]|].
      split; [|reflexivity]. intros _. right. apply andb_prop in E as [E1 E2].
      split; [exact Hp|]. split; [exact Hx|]. exists path, images, texts. auto 10.
    + split; [auto|]. split; [split; [discriminate | congruence]|].
      split; [discriminate|].
      intros [H|(_ & _ & path' & images' & texts' & Ho' & Hc' & Hf' & _ & E1 & E2)];
        [congruence|]. exfalso.
      assert (path' = path) as -> by congruence.
      assert (images' = images) as -> by congruence.
      assert (texts' = texts) as -> by (eapply Forall2_ocr_functional; eauto).
      rewrite E1, E2 in E. discriminate E.
Qed.

Lemma exit_status_witness :
  fst (run (Host Args (Some (lit "form.txt")) true (fun _ => false))
         (Env true (lit "form.pdf") (Some [1]) (fun _ => Some (lit "Name here:")))
         None) = 1%N /\
  fst (run (Host Help None false (fun _ => false))
         (Env false (lit "form.pdf") (@None (list nat)) (fun _ => None))
         None) = 0%N.
Proof.
  split.
  - destruct (exit_status (Host Args (Some (lit "form.txt")) true (fun _ => false))
      (Env true (lit "form.pdf") (Some [1]) (fun _ => Some (lit "Name here:")))
      None) as ([H|[H|H]] & _ & _); [| exact H |]; now vm_compute in H.
  - apply exit_status. now left.
Defined.

(** X15: pages without any field are no error: when the arguments are
    parsed, the input file exists, every page is read and yields no name
    (also when there is no page), the output file opens, the name of the PDF
    can be encoded in UTF-8 and the standard output takes the messages, the
    run ends with status 0 and the file holds the header alone, with a count
    of 0. *)
Theorem run_without_fields {Image : Type} (h : host) (e : @env Image)
    (before : file) (path : list N) (images : list Image) :
  parse_args h = Args -> pdf_exists e = true -> output_path h = Some path ->
  convert_from_path e = Some images ->
  (forall image, image ∈ images ->
     exists text, extract_text_from_image e image = Some text /\
       identify_field_names text = []) ->
  opens h = true -> encodable (pdf_name e) = true ->
  messages_printable h path 0 = true ->
  run h e before = (0%N, Some (report_header e [])) /\
  report_header e [] !! 3 = Some (lit "Total Fields Found: 0" ++ [10%N]).
Proof.
  intros Hp Hx Ho Hc Hall Hop Hpdf Hmsg. split; [|reflexivity].
  destruct (run_spec e h before)
    as [[Hp' _]|[[Hp' _]|[(_ & Hwhy & _)|
        (path' & images' & texts & _ & _ & Ho' & Hc' & Hf & _ & ->)]]];
    [congruence | congruence | |].
  - exfalso.
    destruct Hwhy as [Hn|[Hn|[Hn|[(images' & image & Hc' & Hi & Hn)|Hn]]]];
      [congruence.. | | congruence].
    assert (images' = images) as -> by congruence.
    apply Hall in Hi as (text & Ht & _). congruence.
  - assert (path' = path) as -> by congruence.
    assert (images' = images) as -> by congruence.
    assert (Hempty : aggregate texts = ∅).
    { apply elem_of_equiv_empty_L. intros name Hn.
      apply (aggregate_pages e images texts Hf) in Hn
        as (image & text & Hi & Ht & Hn).
      apply Hall in Hi as (text' & Ht' & He).
      assert (text' = text) as -> by congruence.
      rewrite He in Hn. now apply elem_of_nil in Hn. }
    rewrite Hempty, size_empty, Hmsg.
    change (report e ∅) with (report_header e []).
    assert (He : forallb encodable (report_header e []) = true).
    { unfold report_header. cbn [forallb]. unfold encodable at 3.
      rewrite !forallb_app. fold (encodable (pdf_name e)). now rewrite Hpdf. }
    now rewrite He, written_all.
Qed.

Lemma run_without_fields_witness :
  run (Host Args (Some (lit "form.txt")) true (fun c => (c =? 0x2713)%N))
      (Env true (lit "form.pdf") (Some [1; 2])
         (fun _ => Some (lit "Signature of the applicant")))
      (Some [lit "an older report"]) =
    (0%N, Some (report_header
                  (Env true (lit "form.pdf") (Some [1; 2])
                     (fun _ => Some (lit "Signature of the applicant"))) [])).
Proof.
  apply (run_without_fields _ _ _ (lit "form.txt") [1; 2]); try reflexivity.
  intros image _. eexists. split; reflexivity.
Defined.

(** X16: the outcome of a run depends on which pages there are, not on their
    order or on how often a page occurs. *)
Theorem run_page_order {Image : Type} (h : host) (present : bool)
    (pdf : list N) (ocr : Image -> option (list N))
    (images1 images2 : list Image) (before : file) :
  (forall image, image ∈ images1 <-> image ∈ images2) ->
  run h (Env present pdf (Some images1) ocr) before =
  run h (Env present pdf (Some images2) ocr) before.
Proof.
  intros Hsame.
  set (e1 := Env present pdf (Some images1) ocr).
  set (e2 := Env present pdf (Some images2) ocr).
  destruct (run_spec e1 h before)
    as [[Hp1 ->]|[[Hp1 ->]|[(Hp1 & Hwhy1 & ->)|
        (path1 & i1 & texts1 & Hp1 & Hx1 & Ho1 & [= <-] & Hf1 & Hop1 & ->)]]];
  destruct (run_spec e2 h before)
    as [[Hp2 ->]|[[Hp2 ->]|[(Hp2 & Hwhy2 & ->)|
        (path2 & i2 & texts2 & Hp2 & Hx2 & Ho2 & [= <-] & Hf2 & Hop2 & ->)]]];
    try congruence.
  - exfalso.
    destruct Hwhy1 as [Hn|[Hn|[Hn|[(i & image & [= <-] & Hi & Hn)|Hn]]]];
      [simpl in *; congruence | congruence | discriminate | | congruence].
    apply Hsame, (Forall2_ocr_is_Some e2 _ _ Hf2) in Hi as [text Ht].
    simpl in *. congruence.
  - exfalso.
    destruct Hwhy2 as [Hn|[Hn|[Hn|[(i & image & [= <-] & Hi & Hn)|Hn]]]];
      [simpl in *; congruence | congruence | discriminate | | congruence].
    apply Hsame, (Forall2_ocr_is_Some e1 _ _ Hf1) in Hi as [text Ht].
    simpl in *. congruence.
  - assert (path2 = path1) as -> by congruence.
    assert (Heq : aggregate texts1 = aggregate texts2).
    { apply set_eq. intros x.
      rewrite (aggregate_pages e1 _ _ Hf1 x), (aggregate_pages e2 _ _ Hf2 x).
      simpl. split; intros (image & text & Hi & H); exists image, text;
        (split; [now apply Hsame | exact H]). }
    now rewrite Heq.
Qed.

Lemma run_page_order_witness :
  run (Host Args (Some (lit "form.txt")) true (fun _ => true))
      (Env true (lit "form.pdf") (Some [1; 2])
         (fun image => Some (if image =? 1 then lit "Zip Code:" else lit "Agent Name:")))
      None =
  run (Host Args (Some (lit "form.txt")) true (fun _ => true))
      (Env true (lit "form.pdf") (Some [2; 1; 2])
         (fun image => Some (if image =? 1 then lit "Zip Code:" else lit "Agent Name:")))
      None.
Proof.
  apply run_page_order. intros image.
  rewrite !elem_of_cons, elem_of_nil. tauto.
Defined.
